(** * Conversation viewer: message grouping and workflow summaries

    A shallow embedding of the grouping pass of [ConversationViewer]
    (classifier predicates, [separateInternalProcessing],
    [generateProcessingSummary] and [groupMessages]) together with the
    properties of the segmentation that the specification states.

    Conventions of the embedding.
    - A JavaScript array is a [list]; [arr[k]] is [nth_error arr k], and a
      property read on the [undefined] that an out-of-range index yields is
      the fault [TypeError].
    - Strings are byte strings (the UTF-8 bytes of the source text).
    - Both [while] loops run on fuel; running out of fuel is the outcome
      [OutOfFuel], distinct from a fault and from a normal return.
    - Object identity of the content items of one entry ([===] in the
      source) is identity of their positions in the entry's content array:
      the decoder builds every item as an object of its own. *)

From Stdlib Require Import String Ascii ZArith DecimalString.
From Stdlib Require Import List Arith Bool Lia Permutation.
Import ListNotations.
Local Open Scope list_scope.

Set Warnings "-register-all".

(** ** Data model (types.ts) *)

(** Values of type [any]: tool inputs and tool-result payloads. *)
Inductive JsValue : Type :=
| JsUndefined
| JsNull
| JsBool (b : bool)
| JsNumber (z : Z)
| JsString (s : string)
| JsArray (items : list JsValue)
| JsObject (fields : list (string * JsValue)).

Inductive MessageContent : Type :=
| TextContent (text : string)
| ThinkingContent (thinking : string)
| ImageContent (media_type data : string)
| ToolUse (id name : string) (input : JsValue)
| ToolResult (tool_use_id : string) (content : JsValue) (is_error : option bool).

Inductive Role : Type := user | assistant.

Record Message : Type := mkMessage {
  role : Role;
  content : list MessageContent
}.

Record Usage : Type := mkUsage {
  input_tokens : nat;
  output_tokens : nat;
  cache_creation_input_tokens : option nat;
  cache_read_input_tokens : option nat
}.

Record ConversationEntry : Type := mkEntry {
  id : option string;
  timestamp : option string;
  message : Message;
  model : option string;
  usage : option Usage;
  isSidechain : option bool;
  parentUuid : option string
}.

(** The three kinds of [ProcessedMessage]. *)
Inductive ProcessedMessage : Type :=
| ProcessingWorkflowGroup
    (assistantMessages : list ConversationEntry)
    (internalProcessing : list MessageContent)
    (finalResponse : list MessageContent)
    (toolResults : list ConversationEntry)
    (summary : string)
    (timestamp : string)
| BashWorkflowGroup
    (bashInput : MessageContent)
    (bashOutput : ConversationEntry)
    (userComment : option ConversationEntry)
    (timestamp : string)
| RegularMessage (entry : ConversationEntry).

(** ** Outcomes of a run *)

Inductive result (A : Type) : Type :=
| Done (a : A)
| TypeError
| OutOfFuel.

Arguments Done {A} a.
Arguments TypeError {A}.
Arguments OutOfFuel {A}.

Definition bind {A B : Type} (r : result A) (k : A -> result B) : result B :=
  match r with
  | Done a => k a
  | TypeError => TypeError
  | OutOfFuel => OutOfFuel
  end.

Notation "x <- r ;; k" := (bind r (fun x => k))
  (at level 61, r at next level, right associativity).
Notation "' pat <- r ;; k" := (bind r (fun x => match x with pat => k end))
  (at level 61, pat pattern, r at next level, right associativity).

(** [arr[k]] followed by a property read. *)
Definition elementAt {A : Type} (arr : list A) (k : nat) : result A :=
  match nth_error arr k with
  | Some a => Done a
  | None => TypeError
  end.

(** ** JavaScript helpers *)

(** Truthiness of a string: the empty string is falsy. *)
Definition truthyString (s : string) : bool :=
  match s with
  | EmptyString => false
  | String _ _ => true
  end.

(** Truthiness of an optional boolean field. *)
Definition truthyFlag (b : option bool) : bool :=
  match b with
  | Some true => true
  | _ => false
  end.

(** [s || d] on strings. *)
Definition orString (s d : string) : string :=
  if truthyString s then s else d.

(** [entry.timestamp || ''] *)
Definition timestampOrEmpty (entry : ConversationEntry) : string :=
  match timestamp entry with
  | Some s => orString s ""
  | None => ""
  end.

(** Decimal rendering of a number inside a template literal. *)
Definition showNat (n : nat) : string := NilZero.string_of_uint (Nat.to_uint n).

(** [arr.join(sep)] *)
Fixpoint join (sep : string) (arr : list string) : string :=
  match arr with
  | [] => ""
  | [s] => s
  | s :: rest => s ++ sep ++ join sep rest
  end.

(** [arr.slice(0, n)] is [firstn n arr]. *)

(** A [Map<string, number>]: keys in insertion order; [set] on a key already
    present keeps its place. *)
Definition CountMap : Type := list (string * nat).

Fixpoint mapGet (m : CountMap) (k : string) : option nat :=
  match m with
  | [] => None
  | (k', v) :: rest => if String.eqb k' k then Some v else mapGet rest k
  end.

Fixpoint mapSet (m : CountMap) (k : string) (v : nat) : CountMap :=
  match m with
  | [] => [(k, v)]
  | (k', v') :: rest =>
      if String.eqb k' k then (k', v) :: rest else (k', v') :: mapSet rest k v
  end.

(** The items of an array paired with their positions. *)
Definition indexed {A : Type} (arr : list A) : list (nat * A) :=
  combine (seq 0 (length arr)) arr.

Definition lastOf {A : Type} (arr : list A) : option A :=
  nth_error arr (length arr - 1).

(** ** Classifier *)

Definition isText (c : MessageContent) : bool :=
  match c with TextContent _ => true | _ => false end.

Definition isThinking (c : MessageContent) : bool :=
  match c with ThinkingContent _ => true | _ => false end.

Definition isToolUse (c : MessageContent) : bool :=
  match c with ToolUse _ _ _ => true | _ => false end.

Definition isToolResult (c : MessageContent) : bool :=
  match c with ToolResult _ _ _ => true | _ => false end.

Definition isAssistant (entry : ConversationEntry) : bool :=
  match role (message entry) with assistant => true | user => false end.

Definition isUser (entry : ConversationEntry) : bool :=
  match role (message entry) with user => true | assistant => false end.

Definition isToolResultMessage (entry : ConversationEntry) : bool :=
  isUser entry && forallb isToolResult (content (message entry)).

Definition hasToolUsage (entry : ConversationEntry) : bool :=
  isAssistant entry && existsb isToolUse (content (message entry)).

Definition isBashToolUse (c : MessageContent) : bool :=
  match c with
  | ToolUse _ name _ => String.eqb name "Bash"
  | _ => false
  end.

Definition isBashToolResult (entry : ConversationEntry) : bool :=
  isToolResultMessage entry &&
  existsb (fun c => match c with
                    | ToolResult tool_use_id _ _ => truthyString tool_use_id
                    | _ => false
                    end)
          (content (message entry)).

(** ** separateInternalProcessing *)

(** [content === lastTextContent], on positions. *)
Definition sameItem (p : nat * MessageContent) (q : option (nat * MessageContent)) : bool :=
  match q with
  | Some q' => Nat.eqb (fst p) (fst q')
  | None => false
  end.

Definition separateInternalProcessing (entry : ConversationEntry)
  : list MessageContent * list MessageContent :=
  let items := indexed (content (message entry)) in
  let textContents := filter (fun p => isText (snd p)) items in
  let lastTextContent :=
    if 0 <? length textContents then lastOf textContents else None in
  fold_left
    (fun (acc : list MessageContent * list MessageContent) p =>
       let '(internalProcessing, finalResponse) := acc in
       let c := snd p in
       if isToolUse c || isThinking c || (isText c && negb (sameItem p lastTextContent))
       then (internalProcessing ++ [c], finalResponse)
       else if sameItem p lastTextContent
       then (internalProcessing, finalResponse ++ [c])
       else (internalProcessing, finalResponse ++ [c]))
    items ([], []).

(** ** generateProcessingSummary *)

Definition iconBytes (codes : list nat) : string :=
  string_of_list_ascii (map ascii_of_nat codes).

(** The icons that open the clauses, byte for byte as in the source. *)
Definition iconMessages : string :=
  Eval cbv in iconBytes [239; 163; 191; 195; 188; 195; 172; 195; 185].
Definition iconThinking : string :=
  Eval cbv in iconBytes [239; 163; 191; 195; 188; 194; 167; 195; 174].
Definition iconTools : string :=
  Eval cbv in iconBytes [239; 163; 191; 195; 188; 195; 174; 195; 159].
Definition iconText : string :=
  Eval cbv in iconBytes [239; 163; 191; 195; 188; 195; 173; 226; 137; 160].
Definition iconResults : string :=
  Eval cbv in iconBytes [239; 163; 191; 195; 188; 195; 172; 226; 128; 162].

Definition plural (n : nat) : string := if 1 <? n then "s"%string else ""%string.

(** [content.name || 'Unknown'] over the tool_use items. *)
Definition toolNamesOf (internalProcessing : list MessageContent) : list string :=
  flat_map (fun c => match c with
                     | ToolUse _ name _ => [orString name "Unknown"]
                     | _ => []
                     end)
           internalProcessing.

(** [toolNames.forEach(name => map.set(name, (map.get(name) || 0) + 1))] *)
Definition countNames (toolNames : list string) : CountMap :=
  fold_left
    (fun (m : CountMap) name =>
       mapSet m name (match mapGet m name with Some n => n | None => 0 end + 1))
    toolNames [].

Definition renderTool (p : string * nat) : string :=
  let '(name, count) := p in
  if 1 <? count then (name ++ "(" ++ showNat count ++ ")")%string else name.

(** The value of [toolPart] once the branch [toolCount > 0] is done. *)
Definition toolClause (internalProcessing : list MessageContent) : string :=
  let toolCount := length (filter isToolUse internalProcessing) in
  let toolNames := toolNamesOf internalProcessing in
  let toolCountMap := countNames toolNames in
  let uniqueTools := firstn 3 (map renderTool toolCountMap) in
  let toolPart :=
    (iconTools ++ " " ++ showNat toolCount ++ " tool" ++ plural toolCount ++ ": "
       ++ join ", " uniqueTools)%string in
  if length uniqueTools <? length toolCountMap
  then (toolPart ++ " +" ++ showNat (length toolCountMap - length uniqueTools)
          ++ " more")%string
  else toolPart.

(** The array [parts] at the end of the function. *)
Definition summaryParts (internalProcessing : list MessageContent)
    (subsequentToolResults : list ConversationEntry)
    (assistantMessageCount : nat) : list string :=
  let toolCount := length (filter isToolUse internalProcessing) in
  let thinkingCount := length (filter isThinking internalProcessing) in
  let textCount := length (filter isText internalProcessing) in
  let toolResultCount := length subsequentToolResults in
  (if 1 <? assistantMessageCount
   then [(iconMessages ++ " " ++ showNat assistantMessageCount
            ++ " assistant messages")%string]
   else [])
  ++ (if 0 <? thinkingCount
      then [(iconThinking ++ " " ++ showNat thinkingCount ++ " thinking step"
               ++ plural thinkingCount)%string]
      else [])
  ++ (if 0 <? toolCount then [toolClause internalProcessing] else [])
  ++ (if 0 <? textCount
      then [(iconText ++ " " ++ showNat textCount ++ " intermediate response"
               ++ plural textCount)%string]
      else [])
  ++ (if 0 <? toolResultCount
      then [(iconResults ++ " " ++ showNat toolResultCount ++ " result"
               ++ plural toolResultCount)%string]
      else []).

Definition generateProcessingSummary (internalProcessing : list MessageContent)
    (subsequentToolResults : list ConversationEntry)
    (assistantMessageCount : nat) : string :=
  let parts := summaryParts internalProcessing subsequentToolResults assistantMessageCount in
  if 0 <? length parts then join ", " parts else "Processing steps"%string.

(** ** groupMessages *)

(** The inner [while (j < entries.length)] loop: the run of assistant and
    tool-result-only entries that starts at [j]. *)
Fixpoint collectRun (fuel : nat) (entries : list ConversationEntry) (j : nat)
    (assistantMessages toolResults : list ConversationEntry)
  : result (nat * list ConversationEntry * list ConversationEntry) :=
  if j <? length entries then
    match fuel with
    | 0 => OutOfFuel
    | S fuel' =>
        currentEntry <- elementAt entries j ;;
        if isAssistant currentEntry
        then collectRun fuel' entries (j + 1) (assistantMessages ++ [currentEntry]) toolResults
        else if isToolResultMessage currentEntry
        then collectRun fuel' entries (j + 1) assistantMessages (toolResults ++ [currentEntry])
        else Done (j, assistantMessages, toolResults)
    end
  else Done (j, assistantMessages, toolResults).

(** The [assistantMessages.forEach((assistantMsg, index) => ...)] pass; the
    state is the pair [(allInternalProcessing, finalResponse)]. *)
Definition processAssistantMessages (assistantMessages : list ConversationEntry)
  : list MessageContent * list MessageContent :=
  fold_left
    (fun (acc : list MessageContent * list MessageContent)
         (p : nat * ConversationEntry) =>
       let '(allInternalProcessing, finalResponse) := acc in
       let '(index, assistantMsg) := p in
       let '(internalProcessing, msgFinalResponse) :=
         separateInternalProcessing assistantMsg in
       let allInternalProcessing := allInternalProcessing ++ internalProcessing in
       if index =? length assistantMessages - 1
       then (allInternalProcessing, msgFinalResponse)
       else
         fold_left
           (fun (acc' : list MessageContent * list MessageContent) c =>
              let '(allInternalProcessing', finalResponse') := acc' in
              if isText c
              then (allInternalProcessing' ++ [c], finalResponse')
              else (allInternalProcessing', finalResponse' ++ [c]))
           msgFinalResponse (allInternalProcessing, finalResponse))
    (indexed assistantMessages) ([], []).

(** The code from "Regular assistant message processing" to [i = j]. *)
Definition assistantBranch (entries : list ConversationEntry) (i : nat)
  : result (ProcessedMessage * nat) :=
  '(j, assistantMessages, toolResults) <- collectRun (length entries) entries i [] [] ;;
  let '(allInternalProcessing, finalResponse) :=
    processAssistantMessages assistantMessages in
  if (0 <? length allInternalProcessing) || (1 <? length assistantMessages)
  then
    let summary :=
      generateProcessingSummary allInternalProcessing toolResults
        (length assistantMessages) in
    first <- elementAt assistantMessages 0 ;;
    Done (ProcessingWorkflowGroup assistantMessages allInternalProcessing
            finalResponse toolResults summary (timestampOrEmpty first), j)
  else
    first <- elementAt assistantMessages 0 ;;
    Done (RegularMessage first, j).

(** The body of the bash-workflow [if], entered once the next entry is known
    to be a bash tool result. *)
Definition bashBranch (entries : list ConversationEntry) (i : nat)
    (entry : ConversationEntry) (bashToolUse : MessageContent)
  : result (ProcessedMessage * nat) :=
  bashOutput <- elementAt entries (i + 1) ;;
  let nextIndex := i + 2 in
  isComment <-
    (if nextIndex <? length entries
     then next <- elementAt entries nextIndex ;;
          Done (isUser next && negb (isToolResultMessage next)
                && negb (truthyFlag (isSidechain next)))
     else Done false) ;;
  if isComment
  then userComment <- elementAt entries nextIndex ;;
       Done (BashWorkflowGroup bashToolUse bashOutput (Some userComment)
               (timestampOrEmpty entry), i + 3)
  else Done (BashWorkflowGroup bashToolUse bashOutput None
               (timestampOrEmpty entry), nextIndex).

(** One iteration of the outer loop at cursor [i]: the group pushed and the
    next value of [i]. *)
Definition iteration (entries : list ConversationEntry) (i : nat)
  : result (ProcessedMessage * nat) :=
  entry <- elementAt entries i ;;
  if isAssistant entry
  then
    match find isBashToolUse (content (message entry)) with
    | Some bashToolUse =>
        followed <-
          (if i + 1 <? length entries
           then next <- elementAt entries (i + 1) ;; Done (isBashToolResult next)
           else Done false) ;;
        if followed
        then bashBranch entries i entry bashToolUse
        else assistantBranch entries i
    | None => assistantBranch entries i
    end
  else Done (RegularMessage entry, i + 1).

(** The outer [while (i < entries.length)] loop. *)
Fixpoint groupLoop (fuel : nat) (entries : list ConversationEntry) (i : nat)
    (processedMessages : list ProcessedMessage) : result (list ProcessedMessage) :=
  if i <? length entries then
    match fuel with
    | 0 => OutOfFuel
    | S fuel' =>
        '(group, next) <- iteration entries i ;;
        groupLoop fuel' entries next (processedMessages ++ [group])
    end
  else Done processedMessages.

Definition groupMessages (entries : list ConversationEntry)
  : result (list ProcessedMessage) :=
  groupLoop (length entries) entries 0 [].

(** ** Sample entries *)

Definition entryOf (r : Role) (cs : list MessageContent) : ConversationEntry :=
  mkEntry None None (mkMessage r cs) None None None None.

Definition bashLs : MessageContent :=
  ToolUse "toolu_1" "Bash" (JsObject [("command"%string, JsString "ls -la")]).

Definition resultOf (tool_use_id : string) : MessageContent :=
  ToolResult tool_use_id (JsString "ok") None.

(** ** The collected run *)

(** An entry the inner loop absorbs. *)
Definition absorbed (e : ConversationEntry) : bool :=
  isAssistant e || isToolResultMessage e.

(** The longest prefix of absorbed entries: the entries [entries[i..j-1]]
    that the inner loop walks over. *)
Fixpoint runPrefix (l : list ConversationEntry) : list ConversationEntry :=
  match l with
  | [] => []
  | e :: rest => if absorbed e then e :: runPrefix rest else []
  end.

Definition notAssistant (e : ConversationEntry) : bool := negb (isAssistant e).


(** The group the assistant branch builds from the run it collected. *)
Definition runGroup (run : list ConversationEntry) (first : ConversationEntry)
  : ProcessedMessage :=
  let assistantMessages := filter isAssistant run in
  let toolResults := filter notAssistant run in
  let '(allInternalProcessing, finalResponse) :=
    processAssistantMessages assistantMessages in
  if (0 <? length allInternalProcessing) || (1 <? length assistantMessages)
  then ProcessingWorkflowGroup assistantMessages allInternalProcessing
         finalResponse toolResults
         (generateProcessingSummary allInternalProcessing toolResults
            (length assistantMessages))
         (timestampOrEmpty first)
  else RegularMessage first.

(** ** The scan as a transition system *)

(** [cursorAt entries i groups]: the outer loop reaches its test with cursor
    [i] having pushed [groups] so far. *)
Inductive cursorAt (entries : list ConversationEntry)
  : nat -> list ProcessedMessage -> Prop :=
| cursor_start : cursorAt entries 0 []
| cursor_next (i : nat) (groups : list ProcessedMessage)
    (group : ProcessedMessage) (next : nat) :
    cursorAt entries i groups ->
    i < length entries ->
    iteration entries i = Done (group, next) ->
    cursorAt entries next (groups ++ [group]).

Definition isBashWorkflow (g : ProcessedMessage) : bool :=
  match g with BashWorkflowGroup _ _ _ _ => true | _ => false end.

Definition isProcessingWorkflow (g : ProcessedMessage) : bool :=
  match g with ProcessingWorkflowGroup _ _ _ _ _ _ => true | _ => false end.

Definition isRegular (g : ProcessedMessage) : bool :=
  match g with RegularMessage _ => true | _ => false end.

(** A processing workflow carries the summary computed from its own fields. *)
Definition summaryComputed (g : ProcessedMessage) : Prop :=
  match g with
  | ProcessingWorkflowGroup assistantMessages internalProcessing _ toolResults
      summary _ =>
      summary = generateProcessingSummary internalProcessing toolResults
                  (length assistantMessages)
  | _ => True
  end.

(** The invariant of the entry model: no entry has an empty content array. *)
Definition contentNonEmpty (entries : list ConversationEntry) : Prop :=
  forall e, In e entries -> content (message e) <> [].

(** The entries a group holds, in the order of its fields. A bash workflow
    holds the item of the invoking entry, not the entry. *)
Definition referencedEntries (g : ProcessedMessage) : list ConversationEntry :=
  match g with
  | ProcessingWorkflowGroup assistantMessages _ _ toolResults _ _ =>
      assistantMessages ++ toolResults
  | BashWorkflowGroup _ bashOutput userComment _ =>
      bashOutput :: match userComment with Some c => [c] | None => [] end
  | RegularMessage entry => [entry]
  end.

(** ** The tool clause in the words of the specification *)

(** The distinct names of a list, in first-seen order. *)
Fixpoint distinctNames (names : list string) : list string :=
  match names with
  | [] => []
  | n :: rest => n :: filter (fun m => negb (String.eqb m n)) (distinctNames rest)
  end.

(** How many times a name occurs. *)
Definition occurrences (names : list string) (n : string) : nat :=
  count_occ string_dec names n.

(** [name], or [name(count)] for a name that recurs. *)
Definition specRender (names : list string) (n : string) : string :=
  if 1 <? occurrences names n
  then (n ++ "(" ++ showNat (occurrences names n) ++ ")")%string
  else n.

(** At most the first three distinct names. *)
Definition specToolList (names : list string) : list string :=
  map (specRender names) (firstn 3 (distinctNames names)).

(** The suffix for the distinct names beyond the third. *)
Definition specMoreSuffix (names : list string) : string :=
  if 3 <? length (distinctNames names)
  then (" +" ++ showNat (length (distinctNames names) - 3) ++ " more")%string
  else ""%string.

Definition specToolClause (names : list string) : string :=
  ((iconTools ++ " " ++ showNat (length names) ++ " tool" ++ plural (length names)
      ++ ": " ++ join ", " (specToolList names))
   ++ specMoreSuffix names)%string.

(** ** What each group accounts for *)

Definition optionList {A : Type} (o : option A) : list A :=
  match o with
  | Some a => [a]
  | None => []
  end.

(** [consumes g chunk]: [chunk] is the stretch of entries that the iteration
    pushing [g] moved the cursor over. A regular group pushed by the
    assistant branch stands for an assistant entry and the tool-result-only
    entries collected after it, which the group does not hold. *)
Definition consumes (g : ProcessedMessage) (chunk : list ConversationEntry) : Prop :=
  match g with
  | ProcessingWorkflowGroup assistantMessages _ _ toolResults _ _ =>
      filter isAssistant chunk = assistantMessages
      /\ filter notAssistant chunk = toolResults
  | BashWorkflowGroup bashInput bashOutput userComment stamp =>
      exists entry,
        chunk = entry :: bashOutput :: optionList userComment
        /\ isAssistant entry = true
        /\ find isBashToolUse (content (message entry)) = Some bashInput
        /\ stamp = timestampOrEmpty entry
  | RegularMessage entry =>
      exists dropped,
        chunk = entry :: dropped
        /\ Forall (fun e => isToolResultMessage e = true) dropped
        /\ (dropped <> [] -> isAssistant entry = true)
  end.

(** ** escapeHtml *)

(** [s.replace(/c/g, by)] for a single character [c]. *)
Fixpoint replaceAll (c : ascii) (by_ : string) (s : string) : string :=
  match s with
  | EmptyString => EmptyString
  | String a rest =>
      if Ascii.eqb a c
      then (by_ ++ replaceAll c by_ rest)%string
      else String a (replaceAll c by_ rest)
  end.

Definition ampersand : ascii := Eval cbv in ascii_of_nat 38.
Definition lessThan : ascii := Eval cbv in ascii_of_nat 60.
Definition greaterThan : ascii := Eval cbv in ascii_of_nat 62.
Definition doubleQuote : ascii := Eval cbv in ascii_of_nat 34.
Definition singleQuote : ascii := Eval cbv in ascii_of_nat 39.

(** The five replacements, in the order of the source. *)
Definition escapePasses (s : string) : string :=
  replaceAll singleQuote "&#39;"
    (replaceAll doubleQuote "&quot;"
       (replaceAll greaterThan "&gt;"
          (replaceAll lessThan "&lt;"
             (replaceAll ampersand "&amp;" s)))).

(** [escapeHtml(text)]; [None] is [undefined]. *)
Definition escapeHtml (text : option string) : string :=
  match text with
  | None => ""%string
  | Some s => if truthyString s then escapePasses s else ""%string
  end.

(** The entity of one character, for comparison with the passes. *)
Definition escapeChar (a : ascii) : string :=
  if Ascii.eqb a ampersand then "&amp;"%string
  else if Ascii.eqb a lessThan then "&lt;"%string
  else if Ascii.eqb a greaterThan then "&gt;"%string
  else if Ascii.eqb a doubleQuote then "&quot;"%string
  else if Ascii.eqb a singleQuote then "&#39;"%string
  else String a EmptyString.

Fixpoint escapeEach (s : string) : string :=
  match s with
  | EmptyString => EmptyString
  | String a rest => (escapeChar a ++ escapeEach rest)%string
  end.

Fixpoint occursIn (c : ascii) (s : string) : bool :=
  match s with
  | EmptyString => false
  | String a rest => Ascii.eqb a c || occursIn c rest
  end.

Definition isMarkupChar (c : ascii) : bool :=
  Ascii.eqb c lessThan || Ascii.eqb c greaterThan
  || Ascii.eqb c doubleQuote || Ascii.eqb c singleQuote.

(** ** separateInternalProcessing, item by item *)

(** The same split read from the front of the content: an item is the last
    text item when it is a text item with no text item after it. *)
Fixpoint separateFrom (cs : list MessageContent)
  : list MessageContent * list MessageContent :=
  match cs with
  | [] => ([], [])
  | c :: rest =>
      let '(internalProcessing, finalResponse) := separateFrom rest in
      if isToolUse c || isThinking c || (isText c && existsb isText rest)
      then (c :: internalProcessing, finalResponse)
      else (internalProcessing, c :: finalResponse)
  end.

(** The position of the last text item, positions counted from [start]. *)
Fixpoint lastTextPos (cs : list MessageContent) (start : nat) : option nat :=
  match cs with
  | [] => None
  | c :: rest =>
      match lastTextPos rest (S start) with
      | Some p => Some p
      | None => if isText c then Some start else None
      end
  end.

(** The kinds of item that internal processing is made of. *)
Definition isInternalKind (c : MessageContent) : bool :=
  isToolUse c || isThinking c || isText c.

(** All content items of a list of entries, in order. *)
Definition allContent (es : list ConversationEntry) : list MessageContent :=
  flat_map (fun e => content (message e)) es.

(** What an assistant entry that is not the last of its run adds to the
    internal processing of the run: its own internal processing, then the
    text of its final response. *)
Definition earlierInternal (e : ConversationEntry) : list MessageContent :=
  fst (separateInternalProcessing e)
  ++ filter isText (snd (separateInternalProcessing e)).

(** ** Shapes of summaries and groups *)

Definition startsWithIcon (s : string) : bool :=
  match s with
  | String a _ => Ascii.eqb a (ascii_of_nat 239)
  | EmptyString => false
  end.

(** A processing workflow whose summary is not the fallback text. *)
Definition summaryHasClause (g : ProcessedMessage) : Prop :=
  match g with
  | ProcessingWorkflowGroup _ _ _ _ summary _ => summary <> "Processing steps"%string
  | _ => True
  end.

(** What the renderer can rely on in a group. *)
Definition wellFormedGroup (g : ProcessedMessage) : Prop :=
  match g with
  | ProcessingWorkflowGroup assistantMessages internalProcessing finalResponse
      toolResults _ stamp =>
      (exists first, nth_error assistantMessages 0 = Some first
                     /\ stamp = timestampOrEmpty first)
      /\ forallb isAssistant assistantMessages = true
      /\ forallb isToolResultMessage toolResults = true
      /\ (internalProcessing, finalResponse)
         = processAssistantMessages assistantMessages
      /\ (internalProcessing <> [] \/ 1 < length assistantMessages)
  | BashWorkflowGroup bashInput bashOutput userComment _ =>
      isBashToolUse bashInput = true
      /\ isBashToolResult bashOutput = true
      /\ forall comment, userComment = Some comment ->
           isUser comment = true
           /\ isToolResultMessage comment = false
           /\ truthyFlag (isSidechain comment) = false
  | RegularMessage entry =>
      isAssistant entry = true ->
      existsb isToolUse (content (message entry)) = false
      /\ existsb isThinking (content (message entry)) = false
      /\ length (filter isText (content (message entry))) <= 1
  end.

(** ** extractMessageSummary *)

Definition iconImage : string :=
  Eval cbv in iconBytes [239; 163; 191; 195; 188; 195; 177; 194; 186; 195; 148;
                         226; 136; 143; 195; 168].

(** [extractMessageSummary(entry, maxLength)]. [text.length] and
    [text.substring(0, maxLength)] count the elements of the string; for
    ASCII text these are the code units that the source counts. *)
Definition extractMessageSummary (entry : ConversationEntry) (maxLength : nat)
  : string :=
  match find isText (content (message entry)) with
  | Some (TextContent text) =>
      let text := orString text "" in
      if String.length text <=? maxLength
      then text
      else (substring 0 maxLength text ++ "...")%string
  | _ =>
      match nth_error (content (message entry)) 0 with
      | Some (ToolUse _ name _) =>
          (iconTools ++ " Tool: " ++ orString name "Unknown")%string
      | Some (ToolResult _ _ _) => (iconResults ++ " Tool Result")%string
      | Some (ThinkingContent _) => (iconThinking ++ " Thinking...")%string
      | Some (ImageContent _ _) => (iconImage ++ " Image")%string
      | Some (TextContent _) => "Message"%string
      | None => "Empty message"%string
      end
  end.

(** ** Lines of a JSONL text (parser.ts, combine-jsonl.ts) *)

Definition newline : ascii := Eval cbv in ascii_of_nat 10.

(** [content.split('\n')] *)
Fixpoint splitLines (s : string) : list string :=
  match s with
  | EmptyString => [EmptyString]
  | String a rest =>
      if Ascii.eqb a newline
      then EmptyString :: splitLines rest
      else match splitLines rest with
           | line :: more => String a line :: more
           | [] => [String a EmptyString]
           end
  end.

Section Lines.

(** [line.trim() === '']; what [trim] takes for white space is left open. *)
Variable blank : string -> bool.

(** [content.split('\n').filter(line => line.trim() !== '')], the lines that
    [parseString] parses and that [combineJsonlFiles] collects. *)
Definition nonBlankLines (content : string) : list string :=
  filter (fun line => negb (blank line)) (splitLines content).

(** [combinedJsonl], from the contents of the files that could be read. *)
Definition combineContents (contents : list string) : string :=
  join (String newline EmptyString) (flat_map nonBlankLines contents).

End Lines.

(** A blank test to try the definitions on: spaces, tabs and line ends. *)
Definition asciiBlank (s : string) : bool :=
  forallb (fun a => Ascii.eqb a " " || Ascii.eqb a (ascii_of_nat 9)
                    || Ascii.eqb a (ascii_of_nat 13) || Ascii.eqb a newline)
          (list_ascii_of_string s).

(** ** parser.ts, on parsed JSON values *)

(** [obj[key]] for an object held as its list of fields. *)
Fixpoint lookupField (fields : list (string * JsValue)) (key : string) : JsValue :=
  match fields with
  | [] => JsUndefined
  | (k, v) :: rest => if String.eqb k key then v else lookupField rest key
  end.

(** [v.key] for the property names that the parser reads, none of which a
    string, an array, a number or a boolean has: reading a property of
    [null] or [undefined] throws, an object gives the field or
    [undefined], any other value [undefined]. *)
Definition getProp (v : JsValue) (key : string) : result JsValue :=
  match v with
  | JsUndefined | JsNull => TypeError
  | JsObject fields => Done (lookupField fields key)
  | _ => Done JsUndefined
  end.

Definition truthy (v : JsValue) : bool :=
  match v with
  | JsUndefined | JsNull => false
  | JsBool b => b
  | JsNumber z => negb (Z.eqb z 0)
  | JsString s => truthyString s
  | JsArray _ | JsObject _ => true
  end.

(** [v === 'literal'] *)
Definition isStringLiteral (v : JsValue) (literal : string) : bool :=
  match v with
  | JsString s => String.eqb s literal
  | _ => false
  end.

(** [Array.isArray(v)] *)
Definition isArray (v : JsValue) : bool :=
  match v with JsArray _ => true | _ => false end.

(** [{ type: 'text', text: v }] *)
Definition textItem (v : JsValue) : JsValue :=
  JsObject [("type"%string, JsString "text"); ("text"%string, v)].

(** ['sessionId' in v]: throws unless [v] is an object or an array. *)
Definition hasSessionId (v : JsValue) : result bool :=
  match v with
  | JsObject fields => Done (existsb (fun p => String.eqb (fst p) "sessionId") fields)
  | JsArray _ => Done false
  | _ => TypeError
  end.

Definition summaryPrefix : string :=
  Eval cbv in
    (iconBytes [240; 159; 147; 139] ++ " Conversation Summary: ")%string.

Section Parser.

(** [String(v)] and the conversion of [v] inside a template literal. *)
Variable toStr : JsValue -> string.

(** [new Date().toISOString()] at the time of the call. *)
Variable now : string.

Definition parseClaudeCodeEntry (data : JsValue) : result (option JsValue) :=
  type <- getProp data "type" ;;
  if isStringLiteral type "summary"
  then
    leafUuid <- getProp data "leafUuid" ;;
    summary <- getProp data "summary" ;;
    Done (Some (JsObject
      [("id"%string, leafUuid);
       ("timestamp"%string, JsString now);
       ("message"%string,
        JsObject
          [("role"%string, JsString "assistant");
           ("content"%string,
            JsArray [textItem (JsString (summaryPrefix ++ toStr summary))])])]))
  else if isStringLiteral type "user" || isStringLiteral type "assistant"
  then
    message <- getProp data "message" ;;
    content <- getProp message "content" ;;
    let content :=
      match content with
      | JsString _ => JsArray [textItem content]
      | _ => if negb (isArray content)
             then JsArray [textItem (JsString (toStr content))]
             else content
      end in
    uuid <- getProp data "uuid" ;;
    timestamp <- getProp data "timestamp" ;;
    role <- getProp message "role" ;;
    version <- getProp data "version" ;;
    isSidechain <- getProp data "isSidechain" ;;
    parentUuid <- getProp data "parentUuid" ;;
    Done (Some (JsObject
      [("id"%string, uuid);
       ("timestamp"%string, timestamp);
       ("message"%string,
        JsObject [("role"%string, role); ("content"%string, content)]);
       ("model"%string, version);
       ("isSidechain"%string, isSidechain);
       ("parentUuid"%string, if truthy parentUuid then parentUuid else JsUndefined)]))
  else Done None.

Definition parseLegacyEntry (data : JsValue) : result (option JsValue) :=
  message <- getProp data "message" ;;
  if truthy message
  then
    id <- getProp data "id" ;;
    timestamp <- getProp data "timestamp" ;;
    model <- getProp data "model" ;;
    usage <- getProp data "usage" ;;
    Done (Some (JsObject
      [("id"%string, id); ("timestamp"%string, timestamp);
       ("message"%string, message);
       ("model"%string, model); ("usage"%string, usage)]))
  else
    role <- getProp data "role" ;;
    content <- (if truthy role then getProp data "content" else Done role) ;;
    if truthy role && truthy content
    then
      id <- getProp data "id" ;;
      timestamp <- getProp data "timestamp" ;;
      model <- getProp data "model" ;;
      usage <- getProp data "usage" ;;
      Done (Some (JsObject
        [("id"%string, id); ("timestamp"%string, timestamp);
         ("message"%string,
          JsObject
            [("role"%string, role);
             ("content"%string,
              if isArray content then content else JsArray [textItem content])]);
         ("model"%string, model); ("usage"%string, usage)]))
    else Done None.

(** The entries that the legacy fallback of [parseString] pushes. *)
Definition legacyEntries (data : JsValue) : list JsValue :=
  match parseLegacyEntry data with
  | Done (Some entry) => [entry]
  | _ => []
  end.

(** The entries that one line adds to [entries] in [parseString].
    [parsed] is what [JSON.parse(line)] returns, [None] when it throws (it
    then throws again in the fallback); [sessionKnown] tells whether
    [sessionId] is set already, in which case the [in] test is skipped. *)
Definition parseLine (sessionKnown : bool) (parsed : option JsValue) : list JsValue :=
  match parsed with
  | None => []
  | Some data =>
      match parseClaudeCodeEntry data with
      | Done (Some entry) =>
          if sessionKnown
          then [entry]
          else match hasSessionId data with
               | Done _ => [entry]
               | _ => entry :: legacyEntries data
               end
      | Done None => []
      | _ => legacyEntries data
      end
  end.

End Parser.

(** ** Reading the array at the cursor *)

Section ArrayReads.

Context {A : Type}.
Implicit Types (arr rest : list A) (k : nat) (a : A).

Lemma elementAt_Done {arr k a} :
  nth_error arr k = Some a -> elementAt arr k = Done a.
Proof. unfold elementAt. intros ->. reflexivity. Qed.

Lemma inBounds {arr k a} :
  nth_error arr k = Some a -> (k <? length arr) = true.
Proof.
  intros H. apply Nat.ltb_lt. apply nth_error_Some. congruence.
Qed.

Lemma outOfBounds {arr k} :
  nth_error arr k = None -> (k <? length arr) = false.
Proof.
  intros H. apply Nat.ltb_ge. apply nth_error_None. exact H.
Qed.

Lemma nth_error_skipn {arr k a} :
  nth_error arr k = Some a -> skipn k arr = a :: skipn (k + 1) arr.
Proof.
  revert arr. induction k as [|k IH]; intros arr H.
  - destruct arr; simpl in H; [discriminate|]. injection H as ->. reflexivity.
  - destruct arr as [|x arr]; simpl in H; [discriminate|].
    simpl. apply IH. exact H.
Qed.

End ArrayReads.

(** The entry under an index that is in range. *)
Tactic Notation "read_entry" constr(entries) constr(i) ident(entry) ident(He) :=
  destruct (nth_error entries i) as [entry|] eqn:He;
  [|apply nth_error_None in He; lia].

(** ** The inner loop *)

Lemma collectRun_spec (fuel : nat) (entries : list ConversationEntry) :
  forall j am tr,
    length entries - j <= fuel ->
    collectRun fuel entries j am tr =
    Done (j + length (runPrefix (skipn j entries)),
          am ++ filter isAssistant (runPrefix (skipn j entries)),
          tr ++ filter notAssistant (runPrefix (skipn j entries))).
Proof.
  induction fuel as [|fuel IH]; intros j am tr Hfuel.
  - assert (Hj : (j <? length entries) = false) by (apply Nat.ltb_ge; lia).
    simpl. rewrite Hj.
    rewrite skipn_all2 by lia. simpl.
    rewrite !app_nil_r, Nat.add_0_r. reflexivity.
  - simpl. destruct (nth_error entries j) as [e|] eqn:He.
    + rewrite (inBounds He), (elementAt_Done He). simpl.
      rewrite (nth_error_skipn He). simpl. unfold absorbed.
      pose proof (inBounds He) as Hlt. apply Nat.ltb_lt in Hlt.
      destruct (isAssistant e) eqn:Ha; simpl.
      * rewrite IH by lia. unfold notAssistant at 2. rewrite Ha. simpl.
        rewrite <- !app_assoc. simpl.
        replace (j + 1 + length (runPrefix (skipn (j + 1) entries)))
          with (j + S (length (runPrefix (skipn (j + 1) entries)))) by lia.
        reflexivity.
      * destruct (isToolResultMessage e) eqn:Ht; simpl.
        -- rewrite IH by lia. unfold notAssistant at 2. rewrite Ha. simpl.
           rewrite <- !app_assoc. simpl.
           replace (j + 1 + length (runPrefix (skipn (j + 1) entries)))
             with (j + S (length (runPrefix (skipn (j + 1) entries)))) by lia.
           reflexivity.
        -- rewrite !app_nil_r, Nat.add_0_r. reflexivity.
    + rewrite (outOfBounds He).
      apply nth_error_None in He. rewrite skipn_all2 by lia. simpl.
      rewrite !app_nil_r, Nat.add_0_r. reflexivity.
Qed.

Lemma runPrefix_length (l : list ConversationEntry) :
  length (runPrefix l) <= length l.
Proof.
  induction l as [|e l IH]; simpl; [lia|].
  destruct (absorbed e); simpl; lia.
Qed.

(** ** The branches of one iteration *)

Lemma runPrefix_assistant (entry : ConversationEntry) (rest : list ConversationEntry) :
  isAssistant entry = true ->
  runPrefix (entry :: rest) = entry :: runPrefix rest.
Proof. intros H. simpl. unfold absorbed. rewrite H. reflexivity. Qed.

Lemma assistantBranch_spec (entries : list ConversationEntry) (i : nat)
    (entry : ConversationEntry) :
  nth_error entries i = Some entry ->
  isAssistant entry = true ->
  assistantBranch entries i =
  Done (runGroup (runPrefix (skipn i entries)) entry,
        i + length (runPrefix (skipn i entries))).
Proof.
  intros He Ha. unfold assistantBranch, runGroup.
  rewrite collectRun_spec by lia. simpl.
  rewrite (nth_error_skipn He), (runPrefix_assistant _ _ Ha).
  simpl filter. rewrite Ha.
  destruct (processAssistantMessages _) as [ip fr].
  destruct (_ || _); reflexivity.
Qed.

Lemma run_bounds (entries : list ConversationEntry) (i : nat)
    (entry : ConversationEntry) :
  nth_error entries i = Some entry ->
  isAssistant entry = true ->
  1 <= length (runPrefix (skipn i entries)) <= length entries - i.
Proof.
  intros He Ha. split.
  - rewrite (nth_error_skipn He), (runPrefix_assistant _ _ Ha). simpl. lia.
  - pose proof (runPrefix_length (skipn i entries)) as H.
    rewrite length_skipn in H. exact H.
Qed.

Lemma bashBranch_spec (entries : list ConversationEntry) (i : nat)
    (entry : ConversationEntry) (bashToolUse : MessageContent)
    (bashOutput : ConversationEntry) :
  nth_error entries (i + 1) = Some bashOutput ->
  bashBranch entries i entry bashToolUse =
  match nth_error entries (i + 2) with
  | Some next =>
      if isUser next && negb (isToolResultMessage next)
         && negb (truthyFlag (isSidechain next))
      then Done (BashWorkflowGroup bashToolUse bashOutput (Some next)
                   (timestampOrEmpty entry), i + 3)
      else Done (BashWorkflowGroup bashToolUse bashOutput None
                   (timestampOrEmpty entry), i + 2)
  | None => Done (BashWorkflowGroup bashToolUse bashOutput None
                    (timestampOrEmpty entry), i + 2)
  end.
Proof.
  intros Ho. unfold bashBranch. rewrite (elementAt_Done Ho). simpl.
  destruct (nth_error entries (i + 2)) as [next|] eqn:Hn.
  - rewrite (inBounds Hn), (elementAt_Done Hn). simpl.
    destruct (_ && _); reflexivity.
  - rewrite (outOfBounds Hn). reflexivity.
Qed.

(** Which branch an iteration takes, read off the array. *)
Lemma iteration_spec (entries : list ConversationEntry) (i : nat)
    (entry : ConversationEntry) :
  nth_error entries i = Some entry ->
  iteration entries i =
  if isAssistant entry
  then
    match find isBashToolUse (content (message entry)), nth_error entries (i + 1) with
    | Some bashToolUse, Some next =>
        if isBashToolResult next
        then bashBranch entries i entry bashToolUse
        else assistantBranch entries i
    | _, _ => assistantBranch entries i
    end
  else Done (RegularMessage entry, i + 1).
Proof.
  intros He. unfold iteration. rewrite (elementAt_Done He). simpl.
  destruct (isAssistant entry); [|reflexivity].
  destruct (find _ _) as [b|]; [|reflexivity].
  destruct (nth_error entries (i + 1)) as [next|] eqn:Hn.
  - rewrite (inBounds Hn), (elementAt_Done Hn). simpl.
    destruct (isBashToolResult next); reflexivity.
  - rewrite (outOfBounds Hn). reflexivity.
Qed.

(** Every iteration returns a group and moves the cursor forward, by at
    least one and never past the end. *)
Lemma iteration_advances (entries : list ConversationEntry) (i : nat) :
  i < length entries ->
  exists group next,
    iteration entries i = Done (group, next) /\ i < next <= length entries.
Proof.
  intros Hi.
  read_entry entries i entry He.
  rewrite (iteration_spec _ _ _ He).
  assert (Hrun : isAssistant entry = true ->
                 exists group next,
                   assistantBranch entries i = Done (group, next)
                   /\ i < next <= length entries).
  { intros Ha. rewrite (assistantBranch_spec _ _ _ He Ha).
    pose proof (run_bounds _ _ _ He Ha).
    eexists _, _. split; [reflexivity|lia]. }
  destruct (isAssistant entry) eqn:Ha.
  - destruct (find _ _) as [b|]; [|auto].
    destruct (nth_error entries (i + 1)) as [out|] eqn:Ho; [|auto].
    destruct (isBashToolResult out); [|auto].
    rewrite (bashBranch_spec _ _ _ _ _ Ho).
    assert (Hlen : i + 1 < length entries) by (apply nth_error_Some; congruence).
    destruct (nth_error entries (i + 2)) as [next|] eqn:Hn.
    + assert (i + 2 < length entries) by (apply nth_error_Some; congruence).
      destruct (_ && _); eexists _, _; (split; [reflexivity|lia]).
    + eexists _, _; (split; [reflexivity|lia]).
  - eexists _, _; (split; [reflexivity|lia]).
Qed.

(** ** The outer loop *)

Lemma groupLoop_unfold (fuel : nat) (entries : list ConversationEntry) (i : nat)
    (groups : list ProcessedMessage) :
  groupLoop fuel entries i groups =
  if i <? length entries then
    match fuel with
    | 0 => OutOfFuel
    | S fuel' =>
        '(group, next) <- iteration entries i ;;
        groupLoop fuel' entries next (groups ++ [group])
    end
  else Done groups.
Proof. destruct fuel; reflexivity. Qed.

(** Fuel beyond the distance to the end of the array changes nothing. *)
Lemma groupLoop_fuel (entries : list ConversationEntry) (f1 : nat) :
  forall f2 i groups,
    length entries - i <= f1 ->
    length entries - i <= f2 ->
    groupLoop f1 entries i groups = groupLoop f2 entries i groups.
Proof.
  induction f1 as [|f1 IH]; intros f2 i groups H1 H2.
  - rewrite !groupLoop_unfold.
    assert (Hi : (i <? length entries) = false) by (apply Nat.ltb_ge; lia).
    rewrite Hi. reflexivity.
  - rewrite !groupLoop_unfold.
    destruct (i <? length entries) eqn:Hi; [|reflexivity].
    apply Nat.ltb_lt in Hi.
    destruct f2 as [|f2]; [lia|].
    destruct (iteration_advances entries i Hi) as (group & next & Hit & Hnext).
    rewrite Hit. simpl. apply IH; lia.
Qed.

(** The loop returns, having pushed at most one group per entry left. *)
Lemma groupLoop_total (entries : list ConversationEntry) (fuel : nat) :
  forall i groups,
    length entries - i <= fuel ->
    exists more,
      groupLoop fuel entries i groups = Done (groups ++ more)
      /\ length more <= length entries - i.
Proof.
  induction fuel as [|fuel IH]; intros i groups Hfuel.
  - rewrite groupLoop_unfold.
    assert (Hi : (i <? length entries) = false) by (apply Nat.ltb_ge; lia).
    rewrite Hi. exists []. rewrite app_nil_r. simpl. split; [reflexivity|lia].
  - rewrite groupLoop_unfold.
    destruct (i <? length entries) eqn:Hi.
    + apply Nat.ltb_lt in Hi.
      destruct (iteration_advances entries i Hi) as (group & next & Hit & Hnext).
      rewrite Hit. simpl.
      destruct (IH next (groups ++ [group])) as (more & Hmore & Hlen); [lia|].
      exists (group :: more). rewrite Hmore, <- app_assoc. simpl.
      split; [reflexivity|lia].
    + exists []. rewrite app_nil_r. simpl. split; [reflexivity|lia].
Qed.

Lemma cursorAt_bound (entries : list ConversationEntry) (i : nat)
    (groups : list ProcessedMessage) :
  cursorAt entries i groups -> i <= length entries.
Proof.
  intros H. induction H as [|i groups group next Hc IH Hi Hit]; [lia|].
  destruct (iteration_advances entries i Hi) as (g & n & Hit' & Hn).
  rewrite Hit in Hit'. injection Hit' as <- <-. lia.
Qed.

(** From any state the scan reaches, the loop finishes with the result of
    the whole call. *)
Lemma cursorAt_result (entries : list ConversationEntry) (i : nat)
    (groups : list ProcessedMessage) :
  cursorAt entries i groups ->
  forall fuel, length entries - i <= fuel ->
    groupLoop fuel entries i groups = groupMessages entries.
Proof.
  intros H. induction H as [|i groups group next Hc IH Hi Hit]; intros fuel Hfuel.
  - unfold groupMessages. apply groupLoop_fuel; lia.
  - destruct (iteration_advances entries i Hi) as (g & n & Hit' & Hn).
    rewrite Hit in Hit'. injection Hit' as <- <-.
    rewrite <- (IH (S (fuel + length entries))) by lia.
    rewrite (groupLoop_unfold (S _)).
    assert (Hlt : (i <? length entries) = true) by (apply Nat.ltb_lt; lia).
    rewrite Hlt, Hit. simpl. apply groupLoop_fuel; lia.
Qed.

(** The groups pushed so far are a prefix of the result. *)
Lemma cursorAt_prefix (entries : list ConversationEntry) (i : nat)
    (groups : list ProcessedMessage) :
  cursorAt entries i groups ->
  exists more, groupMessages entries = Done (groups ++ more).
Proof.
  intros H.
  rewrite <- (cursorAt_result _ _ _ H (length entries - i)) by lia.
  destruct (groupLoop_total entries (length entries - i) i groups) as (more & Hm & _);
    [lia|].
  exists more. exact Hm.
Qed.

(** The state in which the loop exits is a reachable state. *)
Lemma groupLoop_reaches (entries : list ConversationEntry) (fuel : nat) :
  forall i groups result,
    cursorAt entries i groups ->
    groupLoop fuel entries i groups = Done result ->
    cursorAt entries (length entries) result.
Proof.
  induction fuel as [|fuel IH]; intros i groups result Hc Hloop;
    rewrite groupLoop_unfold in Hloop;
    destruct (i <? length entries) eqn:Hi; try discriminate.
  - apply Nat.ltb_ge in Hi. pose proof (cursorAt_bound _ _ _ Hc).
    injection Hloop as <-. replace (length entries) with i by lia. exact Hc.
  - apply Nat.ltb_lt in Hi.
    destruct (iteration_advances entries i Hi) as (group & next & Hit & Hnext).
    rewrite Hit in Hloop. simpl in Hloop.
    apply (IH next (groups ++ [group])); [|exact Hloop].
    eapply cursor_next; eassumption.
  - apply Nat.ltb_ge in Hi. pose proof (cursorAt_bound _ _ _ Hc).
    injection Hloop as <-. replace (length entries) with i by lia. exact Hc.
Qed.

Lemma groupMessages_reaches (entries : list ConversationEntry)
    (result : list ProcessedMessage) :
  groupMessages entries = Done result ->
  cursorAt entries (length entries) result.
Proof.
  intros H. apply (groupLoop_reaches entries (length entries) 0 [] result (cursor_start entries) H).
Qed.

(** A property of every group an iteration can push holds of every group
    of the result. *)
Lemma groups_invariant (entries : list ConversationEntry)
    (P : ProcessedMessage -> Prop) :
  (forall i group next,
      i < length entries -> iteration entries i = Done (group, next) -> P group) ->
  forall groups, groupMessages entries = Done groups -> Forall P groups.
Proof.
  intros Hstep groups Hrun. apply groupMessages_reaches in Hrun.
  remember (length entries) as n eqn:Hn in Hrun. clear Hn.
  induction Hrun as [|i groups group next Hc IH Hi Hit].
  - constructor.
  - apply Forall_app. split; [exact IH|].
    constructor; [|constructor]. exact (Hstep i group next Hi Hit).
Qed.

(** What an iteration pushed, by the branch it took. *)
Lemma iteration_inv (entries : list ConversationEntry) (i : nat)
    (entry : ConversationEntry) (group : ProcessedMessage) (next : nat) :
  nth_error entries i = Some entry ->
  iteration entries i = Done (group, next) ->
  (isAssistant entry = false /\ group = RegularMessage entry /\ next = i + 1)
  \/ (isAssistant entry = true
      /\ exists bashToolUse bashOutput,
          find isBashToolUse (content (message entry)) = Some bashToolUse
          /\ nth_error entries (i + 1) = Some bashOutput
          /\ isBashToolResult bashOutput = true
          /\ bashBranch entries i entry bashToolUse = Done (group, next))
  \/ (isAssistant entry = true
      /\ group = runGroup (runPrefix (skipn i entries)) entry
      /\ next = i + length (runPrefix (skipn i entries))).
Proof.
  intros He Hit. rewrite (iteration_spec _ _ _ He) in Hit.
  assert (Hrun : isAssistant entry = true ->
                 assistantBranch entries i = Done (group, next) ->
                 group = runGroup (runPrefix (skipn i entries)) entry
                 /\ next = i + length (runPrefix (skipn i entries))).
  { intros Ha Hb. rewrite (assistantBranch_spec _ _ _ He Ha) in Hb.
    injection Hb as <- <-. split; reflexivity. }
  destruct (isAssistant entry) eqn:Ha.
  - destruct (find _ _) as [b|] eqn:Hf; [|right; right; split; auto].
    destruct (nth_error entries (i + 1)) as [out|] eqn:Ho; [|right; right; split; auto].
    destruct (isBashToolResult out) eqn:Hr; [|right; right; split; auto].
    right; left. split; [reflexivity|]. exists b, out. auto.
  - left. injection Hit as <- <-. auto.
Qed.

Lemma runGroup_not_bash (run : list ConversationEntry) (first : ConversationEntry) :
  isBashWorkflow (runGroup run first) = false.
Proof.
  unfold runGroup. destruct (processAssistantMessages _) as [ip fr].
  destruct (_ || _); reflexivity.
Qed.

Lemma runGroup_summary (run : list ConversationEntry) (first : ConversationEntry) :
  summaryComputed (runGroup run first).
Proof.
  unfold runGroup. destruct (processAssistantMessages _) as [ip fr].
  destruct (_ || _); simpl; auto.
Qed.

Lemma bashBranch_inv (entries : list ConversationEntry) (i : nat)
    (entry : ConversationEntry) (bashToolUse : MessageContent)
    (bashOutput : ConversationEntry) (group : ProcessedMessage) (next : nat) :
  nth_error entries (i + 1) = Some bashOutput ->
  bashBranch entries i entry bashToolUse = Done (group, next) ->
  exists userComment,
    group = BashWorkflowGroup bashToolUse bashOutput userComment (timestampOrEmpty entry)
    /\ ((userComment = None /\ next = i + 2)
        \/ (userComment = nth_error entries (i + 2) /\ next = i + 3)).
Proof.
  intros Ho Hb. rewrite (bashBranch_spec _ _ _ _ _ Ho) in Hb.
  destruct (nth_error entries (i + 2)) as [c|] eqn:Hc.
  - destruct (_ && _); injection Hb as <- <-; eexists; split; eauto.
  - injection Hb as <- <-; eexists; split; eauto.
Qed.

(** ** Termination and absence of faults *)

(** C8: [groupMessages] terminates on every entry sequence. Every iteration
    of the forward scan returns a group and a next cursor that is at least
    one past the current one and never past the end, and the loop is over
    after at most [length entries] iterations: that much fuel is enough and
    no more than that many groups are pushed. *)
Theorem groupMessages_terminates (entries : list ConversationEntry) :
  (forall i, i < length entries ->
     exists group next,
       iteration entries i = Done (group, next)
       /\ i + 1 <= next /\ next <= length entries)
  /\ exists groups,
       groupMessages entries = Done groups
       /\ length groups <= length entries.
Proof.
  split.
  - intros i Hi.
    destruct (iteration_advances entries i Hi) as (group & next & Hit & Hn).
    exists group, next. split; [exact Hit|lia].
  - unfold groupMessages.
    destruct (groupLoop_total entries (length entries) 0 []) as (more & Hm & Hlen);
      [lia|].
    exists more. split; [exact Hm|lia].
Qed.

(** C7: on every entry sequence whose entries all have non-empty content,
    [groupMessages] returns a list of groups: no read of the entry array or
    of the collected assistant entries is out of range, and the loops end.
    In particular the run collected by the assistant branch starts with the
    entry under the cursor, so [assistantMessages[0]] is defined, and every
    processing workflow of the result carries the string that
    [generateProcessingSummary] returned for it. *)
Theorem groupMessages_no_fault (entries : list ConversationEntry) :
  contentNonEmpty entries ->
  (exists groups,
      groupMessages entries = Done groups /\ Forall summaryComputed groups)
  /\ (forall i entry,
        nth_error entries i = Some entry ->
        isAssistant entry = true ->
        exists j assistantMessages toolResults,
          collectRun (length entries) entries i [] [] =
            Done (j, assistantMessages, toolResults)
          /\ elementAt assistantMessages 0 = Done entry).
Proof.
  intros _. split.
  - destruct (groupLoop_total entries (length entries) 0 []) as (more & Hm & _);
      [lia|].
    exists more. split; [exact Hm|].
    apply (groups_invariant entries summaryComputed); [|exact Hm].
    intros i group next Hi Hit.
    read_entry entries i entry He.
    destruct (iteration_inv _ _ _ _ _ He Hit)
      as [(_ & -> & _) | [(_ & b & out & _ & Ho & _ & Hb) | (_ & -> & _)]].
    + exact I.
    + destruct (bashBranch_inv _ _ _ _ _ _ _ Ho Hb) as (c & -> & _). exact I.
    + apply runGroup_summary.
  - intros i entry He Ha.
    rewrite collectRun_spec by lia.
    eexists _, _, _. split; [reflexivity|].
    rewrite (nth_error_skipn He), (runPrefix_assistant _ _ Ha).
    simpl. rewrite Ha. reflexivity.
Qed.

Lemma groupMessages_no_fault_witness :
  contentNonEmpty [entryOf assistant [TextContent "hi"]; entryOf user [resultOf "toolu_1"]]
  /\ exists groups,
       groupMessages [entryOf assistant [TextContent "hi"];
                      entryOf user [resultOf "toolu_1"]] = Done groups.
Proof.
  assert (H : contentNonEmpty [entryOf assistant [TextContent "hi"];
                               entryOf user [resultOf "toolu_1"]]).
  { intros e [<- | [<- | []]]; simpl; discriminate. }
  split; [exact H|].
  destruct (groupMessages_no_fault _ H) as [(groups & Hg & _) _].
  exists groups. exact Hg.
Defined.

(** ** The shell workflow *)

Lemma find_existsb {A : Type} (f : A -> bool) (l : list A) :
  existsb f l = true -> exists a, find f l = Some a.
Proof.
  induction l as [|x l IH]; simpl; [discriminate|].
  destruct (f x); [eauto|]. exact IH.
Qed.

(** [find] returns the first item that passes the test. *)
Lemma find_first {A : Type} (f : A -> bool) (l : list A) (a : A) :
  find f l = Some a ->
  exists before after,
    l = before ++ a :: after /\ f a = true
    /\ forall x, In x before -> f x = false.
Proof.
  induction l as [|x l IH]; simpl; [discriminate|].
  destruct (f x) eqn:Hx.
  - intros H. injection H as <-. exists [], l. simpl. intuition.
  - intros H. destruct (IH H) as (before & after & -> & Ha & Hb).
    exists (x :: before), after. simpl. split; [reflexivity|].
    split; [exact Ha|]. intros y [<-|Hy]; auto.
Qed.

Lemma isBashToolResult_intro (e : ConversationEntry) :
  isToolResultMessage e = true ->
  (exists tool_use_id c err,
      In (ToolResult tool_use_id c err) (content (message e))
      /\ tool_use_id <> ""%string) ->
  isBashToolResult e = true.
Proof.
  intros Ht (tid & c & err & Hin & Hne). unfold isBashToolResult.
  rewrite Ht. simpl. apply existsb_exists.
  exists (ToolResult tid c err). split; [exact Hin|].
  destruct tid; [congruence|reflexivity].
Qed.

Lemma isBashWorkflow_inv (entries : list ConversationEntry) (i : nat)
    (entry : ConversationEntry) (group : ProcessedMessage) (next : nat) :
  nth_error entries i = Some entry ->
  iteration entries i = Done (group, next) ->
  isBashWorkflow group = true ->
  isAssistant entry = true
  /\ exists bashToolUse bashOutput,
      find isBashToolUse (content (message entry)) = Some bashToolUse
      /\ nth_error entries (i + 1) = Some bashOutput
      /\ isBashToolResult bashOutput = true
      /\ bashBranch entries i entry bashToolUse = Done (group, next).
Proof.
  intros He Hit Hg.
  destruct (iteration_inv _ _ _ _ _ He Hit)
    as [(_ & -> & _) | [H | (_ & -> & _)]].
  - discriminate.
  - exact H.
  - rewrite runGroup_not_bash in Hg. discriminate.
Qed.

(** C3, as the code has it: when the cursor of the scan stands on an
    assistant entry that contains a Bash tool_use item and the next entry is
    a tool-result-only user entry with at least one tool_result item whose
    [tool_use_id] is not empty, that iteration pushes a bash workflow for
    the pair (its input the first Bash item, its output the next entry) and
    that group is part of the result, whatever else the assistant entry
    contains. Neither the tool name behind the result nor the agreement of
    the two ids is looked at. *)
Theorem shell_pattern_at_cursor (entries : list ConversationEntry) (i : nat)
    (groups : list ProcessedMessage) (entry bashOutput : ConversationEntry) :
  cursorAt entries i groups ->
  nth_error entries i = Some entry ->
  isAssistant entry = true ->
  existsb isBashToolUse (content (message entry)) = true ->
  nth_error entries (i + 1) = Some bashOutput ->
  isToolResultMessage bashOutput = true ->
  (exists tool_use_id c err,
      In (ToolResult tool_use_id c err) (content (message bashOutput))
      /\ tool_use_id <> ""%string) ->
  exists bashToolUse userComment next more,
    find isBashToolUse (content (message entry)) = Some bashToolUse
    /\ iteration entries i =
       Done (BashWorkflowGroup bashToolUse bashOutput userComment
               (timestampOrEmpty entry), next)
    /\ groupMessages entries =
       Done (groups
             ++ BashWorkflowGroup bashToolUse bashOutput userComment
                  (timestampOrEmpty entry) :: more).
Proof.
  intros Hc He Ha Hbash Ho Ht Hid.
  destruct (find_existsb _ _ Hbash) as (b & Hf).
  pose proof (isBashToolResult_intro _ Ht Hid) as Hr.
  assert (Hit : exists userComment next,
             iteration entries i =
             Done (BashWorkflowGroup b bashOutput userComment
                     (timestampOrEmpty entry), next)).
  { rewrite (iteration_spec _ _ _ He), Ha, Hf, Ho, Hr.
    rewrite (bashBranch_spec _ _ _ _ _ Ho).
    destruct (nth_error entries (i + 2)) as [c|];
      [destruct (_ && _)|]; eexists _, _; reflexivity. }
  destruct Hit as (userComment & next & Hit).
  assert (Hi : i < length entries) by (apply nth_error_Some; congruence).
  destruct (cursorAt_prefix _ _ _ (cursor_next _ _ _ _ _ Hc Hi Hit)) as (more & Hmore).
  exists b, userComment, next, more.
  rewrite <- app_assoc in Hmore. auto.
Qed.

Lemma shell_pattern_at_cursor_witness :
  exists bashToolUse userComment next more,
    find isBashToolUse [TextContent "listing"; bashLs] = Some bashToolUse
    /\ iteration [entryOf assistant [TextContent "listing"; bashLs];
                  entryOf user [resultOf "toolu_9"]] 0 =
       Done (BashWorkflowGroup bashToolUse (entryOf user [resultOf "toolu_9"])
               userComment ""%string, next)
    /\ groupMessages [entryOf assistant [TextContent "listing"; bashLs];
                      entryOf user [resultOf "toolu_9"]] =
       Done ([] ++ BashWorkflowGroup bashToolUse (entryOf user [resultOf "toolu_9"])
                     userComment ""%string :: more).
Proof.
  apply (shell_pattern_at_cursor
           [entryOf assistant [TextContent "listing"; bashLs];
            entryOf user [resultOf "toolu_9"]]
           0 []
           (entryOf assistant [TextContent "listing"; bashLs])
           (entryOf user [resultOf "toolu_9"])).
  - apply cursor_start.
  - reflexivity.
  - reflexivity.
  - reflexivity.
  - reflexivity.
  - reflexivity.
  - exists "toolu_9"%string, (JsString "ok"), None. split.
    + simpl. left. reflexivity.
    + discriminate.
Defined.

(** C3 as stated fails twice over. An assistant entry with a Bash item that
    an earlier assistant entry's run has absorbed is followed by its
    tool-result-only entry and yet ends up in a processing workflow; and a
    tool-result-only entry whose only tool_result has an empty
    [tool_use_id] does not count as a bash result. *)
Lemma shell_pattern_counterexample :
  (nth_error [entryOf assistant [TextContent "hi"]; entryOf assistant [bashLs];
              entryOf user [resultOf "toolu_1"]] 1
   = Some (entryOf assistant [bashLs])
   /\ isToolResultMessage (entryOf user [resultOf "toolu_1"]) = true
   /\ exists groups,
        groupMessages [entryOf assistant [TextContent "hi"];
                       entryOf assistant [bashLs];
                       entryOf user [resultOf "toolu_1"]] = Done groups
        /\ existsb isBashWorkflow groups = false
        /\ existsb isProcessingWorkflow groups = true)
  /\ (isToolResultMessage (entryOf user [resultOf ""]) = true
      /\ existsb isToolResult (content (message (entryOf user [resultOf ""]))) = true
      /\ exists groups,
           groupMessages [entryOf assistant [bashLs];
                          entryOf user [resultOf ""]] = Done groups
           /\ existsb isBashWorkflow groups = false
           /\ existsb isProcessingWorkflow groups = true).
Proof.
  repeat split; try reflexivity.
  - eexists. split; [vm_compute; reflexivity|]. split; reflexivity.
  - eexists. split; [vm_compute; reflexivity|]. split; reflexivity.
Qed.

(** C5: whenever the iteration at cursor [i] pushes a bash workflow and the
    entry at [i + 2] exists, has the user role, is not tool-result-only and
    is not flagged as sidechain, that entry is the group's [userComment]
    and the cursor moves to [i + 3], so that the entry is never under the
    cursor and gets no regular group of its own. On the three-entry
    conversation of the specification (a Bash call of [ls -la], its result,
    the user saying [thanks]) the result is exactly one bash workflow that
    holds that command and that comment. *)
Theorem shell_workflow_user_comment :
  (forall (entries : list ConversationEntry) (i : nat) (group : ProcessedMessage)
          (next : nat) (comment : ConversationEntry),
      iteration entries i = Done (group, next) ->
      isBashWorkflow group = true ->
      nth_error entries (i + 2) = Some comment ->
      isUser comment = true ->
      isToolResultMessage comment = false ->
      truthyFlag (isSidechain comment) = false ->
      next = i + 3
      /\ exists bashToolUse bashOutput stamp,
           group = BashWorkflowGroup bashToolUse bashOutput (Some comment) stamp)
  /\ groupMessages
       [entryOf assistant
          [ToolUse "toolu_1" "Bash" (JsObject [("command"%string, JsString "ls -la")])];
        entryOf user [ToolResult "toolu_1" (JsString "ok") None];
        entryOf user [TextContent "thanks"]]
     = Done
         [BashWorkflowGroup
            (ToolUse "toolu_1" "Bash" (JsObject [("command"%string, JsString "ls -la")]))
            (entryOf user [ToolResult "toolu_1" (JsString "ok") None])
            (Some (entryOf user [TextContent "thanks"]))
            ""%string].
Proof.
  split; [|reflexivity].
  intros entries i group next comment Hit Hg Hc Hu Ht Hs.
  assert (Hi : i < length entries).
  { assert (i + 2 < length entries) by (apply nth_error_Some; congruence). lia. }
  read_entry entries i entry He.
  destruct (isBashWorkflow_inv _ _ _ _ _ He Hit Hg)
    as (_ & b & out & _ & Ho & _ & Hb).
  rewrite (bashBranch_spec _ _ _ _ _ Ho), Hc, Hu, Ht, Hs in Hb.
  simpl in Hb. injection Hb as <- <-.
  split; [reflexivity|]. eexists _, _, _. reflexivity.
Qed.

Lemma shell_workflow_user_comment_witness :
  3 = 0 + 3
  /\ exists bashToolUse bashOutput stamp,
       BashWorkflowGroup bashLs (entryOf user [resultOf "toolu_1"])
         (Some (entryOf user [TextContent "thanks"])) ""%string
       = BashWorkflowGroup bashToolUse bashOutput
           (Some (entryOf user [TextContent "thanks"])) stamp.
Proof.
  apply (proj1 shell_workflow_user_comment
           [entryOf assistant [bashLs]; entryOf user [resultOf "toolu_1"];
            entryOf user [TextContent "thanks"]]
           0
           (BashWorkflowGroup bashLs (entryOf user [resultOf "toolu_1"])
              (Some (entryOf user [TextContent "thanks"])) ""%string)
           3 (entryOf user [TextContent "thanks"]));
    reflexivity.
Defined.

(** C9: when an iteration pushes a bash workflow, the item stored as
    [bashInput] is the first Bash tool_use item of the entry under the
    cursor, in content order, also when the entry has several. The other
    fields of the group are the next entry, the optional comment entry two
    places on and the timestamp: no other content item of the assistant
    entry goes into the group. *)
Theorem bash_input_is_first (entries : list ConversationEntry) (i : nat)
    (entry : ConversationEntry) (group : ProcessedMessage) (next : nat) :
  nth_error entries i = Some entry ->
  iteration entries i = Done (group, next) ->
  isBashWorkflow group = true ->
  exists before bashInput after bashOutput userComment,
    content (message entry) = before ++ bashInput :: after
    /\ isBashToolUse bashInput = true
    /\ (forall c, In c before -> isBashToolUse c = false)
    /\ nth_error entries (i + 1) = Some bashOutput
    /\ (userComment = None \/ userComment = nth_error entries (i + 2))
    /\ group = BashWorkflowGroup bashInput bashOutput userComment
                 (timestampOrEmpty entry).
Proof.
  intros He Hit Hg.
  destruct (isBashWorkflow_inv _ _ _ _ _ He Hit Hg)
    as (_ & b & out & Hf & Ho & _ & Hb).
  destruct (find_first _ _ _ Hf) as (before & after & Hsplit & Hb1 & Hb2).
  destruct (bashBranch_inv _ _ _ _ _ _ _ Ho Hb) as (c & -> & Hc).
  exists before, b, after, out, c.
  repeat split; try assumption.
  destruct Hc as [(-> & _) | (-> & _)]; auto.
Qed.

Lemma bash_input_is_first_witness :
  exists before bashInput after bashOutput userComment,
    [TextContent "two commands"; bashLs;
     ToolUse "toolu_2" "Bash" (JsObject [("command"%string, JsString "pwd")])]
    = before ++ bashInput :: after
    /\ isBashToolUse bashInput = true
    /\ (forall c, In c before -> isBashToolUse c = false)
    /\ Some (entryOf user [resultOf "toolu_1"]) = Some bashOutput
    /\ (userComment = None \/ userComment = None)
    /\ BashWorkflowGroup bashLs (entryOf user [resultOf "toolu_1"]) None ""%string
       = BashWorkflowGroup bashInput bashOutput userComment ""%string.
Proof.
  apply (bash_input_is_first
           [entryOf assistant
              [TextContent "two commands"; bashLs;
               ToolUse "toolu_2" "Bash"
                 (JsObject [("command"%string, JsString "pwd")])];
            entryOf user [resultOf "toolu_1"]]
           0
           (entryOf assistant
              [TextContent "two commands"; bashLs;
               ToolUse "toolu_2" "Bash"
                 (JsObject [("command"%string, JsString "pwd")])])
           (BashWorkflowGroup bashLs (entryOf user [resultOf "toolu_1"]) None
              ""%string)
           2);
    reflexivity.
Defined.

(** ** Entries without content *)

(** C10: [isToolResultMessage] holds of every user entry whose content is
    empty, the test over the items being vacuous; the collecting loop that
    meets such an entry appends it to [toolResults] and goes on with the
    next index instead of stopping the run. *)
Theorem empty_user_entry_absorbed (entries : list ConversationEntry) (j : nat)
    (e : ConversationEntry) :
  isUser e = true ->
  content (message e) = [] ->
  nth_error entries j = Some e ->
  isToolResultMessage e = true
  /\ forall fuel assistantMessages toolResults,
       collectRun (S fuel) entries j assistantMessages toolResults =
       collectRun fuel entries (j + 1) assistantMessages (toolResults ++ [e]).
Proof.
  intros Hu Hc He.
  assert (Ht : isToolResultMessage e = true).
  { unfold isToolResultMessage. rewrite Hu, Hc. reflexivity. }
  split; [exact Ht|].
  intros fuel am tr. simpl.
  rewrite (inBounds He), (elementAt_Done He). simpl.
  assert (Ha : isAssistant e = false).
  { unfold isUser in Hu. unfold isAssistant. destruct (role (message e)); congruence. }
  rewrite Ha, Ht. reflexivity.
Qed.

Lemma empty_user_entry_absorbed_witness :
  isToolResultMessage (entryOf user []) = true
  /\ groupMessages [entryOf assistant [ThinkingContent "t"]; entryOf user [];
                    entryOf assistant [TextContent "done"]]
     = Done [ProcessingWorkflowGroup
               [entryOf assistant [ThinkingContent "t"];
                entryOf assistant [TextContent "done"]]
               [ThinkingContent "t"] [TextContent "done"]
               [entryOf user []]
               (generateProcessingSummary [ThinkingContent "t"] [entryOf user []] 2)
               ""%string].
Proof.
  split.
  - apply (empty_user_entry_absorbed
             [entryOf assistant [ThinkingContent "t"]; entryOf user [];
              entryOf assistant [TextContent "done"]] 1 (entryOf user []));
      reflexivity.
  - reflexivity.
Defined.

(** ** The assistant branch *)

Lemma indexed_from_snoc {A : Type} (l : list A) (x : A) :
  forall start,
    combine (seq start (length (l ++ [x]))) (l ++ [x]) =
    combine (seq start (length l)) l ++ [(start + length l, x)].
Proof.
  induction l as [|y l IH]; intros start; simpl.
  - rewrite Nat.add_0_r. reflexivity.
  - rewrite IH. rewrite Nat.add_succ_r. reflexivity.
Qed.

Lemma indexed_snoc {A : Type} (l : list A) (x : A) :
  indexed (l ++ [x]) = indexed l ++ [(length l, x)].
Proof. unfold indexed. rewrite indexed_from_snoc. reflexivity. Qed.

(** Only the last collected assistant entry decides [finalResponse]: the
    assignment made for it replaces whatever the earlier entries pushed. *)
Lemma processAssistantMessages_final (earlier : list ConversationEntry)
    (lastMsg : ConversationEntry) :
  snd (processAssistantMessages (earlier ++ [lastMsg])) =
  snd (separateInternalProcessing lastMsg).
Proof.
  unfold processAssistantMessages.
  rewrite indexed_snoc, fold_left_app. simpl.
  destruct (fold_left _ (indexed earlier) ([], [])) as [ip fr].
  destruct (separateInternalProcessing lastMsg) as [ip' fr'].
  rewrite length_app. simpl.
  replace (length earlier + 1 - 1) with (length earlier) by lia.
  rewrite Nat.eqb_refl. reflexivity.
Qed.

Lemma processAssistantMessages_single (entry : ConversationEntry) :
  processAssistantMessages [entry] = separateInternalProcessing entry.
Proof.
  unfold processAssistantMessages. simpl.
  destruct (separateInternalProcessing entry) as [ip fr]. reflexivity.
Qed.

Lemma length_pos_iff {A : Type} (l : list A) :
  (0 <? length l) = true <-> l <> [].
Proof.
  destruct l; simpl; split; intros H; try congruence; try reflexivity.
  discriminate.
Qed.

(** C4: the assistant branch, which runs when no shell pattern fired, pushes
    a processing workflow if and only if the accumulated internal
    processing is not empty or more than one assistant entry was collected.
    Otherwise exactly one assistant entry was collected, the one under the
    cursor, nothing of it is internal processing, and the group pushed is
    the regular group of that entry; an entry whose content is a single
    text item, collected alone, is such a case. *)
Theorem assistant_branch_group (entries : list ConversationEntry) (i : nat)
    (entry : ConversationEntry) :
  nth_error entries i = Some entry ->
  isAssistant entry = true ->
  exists j assistantMessages toolResults group,
    collectRun (length entries) entries i [] [] =
      Done (j, assistantMessages, toolResults)
    /\ assistantBranch entries i = Done (group, j)
    /\ (isProcessingWorkflow group = true <->
        fst (processAssistantMessages assistantMessages) <> []
        \/ 1 < length assistantMessages)
    /\ (isProcessingWorkflow group = true ->
        group = ProcessingWorkflowGroup assistantMessages
                  (fst (processAssistantMessages assistantMessages))
                  (snd (processAssistantMessages assistantMessages))
                  toolResults
                  (generateProcessingSummary
                     (fst (processAssistantMessages assistantMessages))
                     toolResults (length assistantMessages))
                  (timestampOrEmpty entry))
    /\ (isProcessingWorkflow group = false ->
        assistantMessages = [entry]
        /\ fst (processAssistantMessages assistantMessages) = []
        /\ group = RegularMessage entry)
    /\ (forall text,
          content (message entry) = [TextContent text] ->
          length assistantMessages = 1 ->
          group = RegularMessage entry).
Proof.
  intros He Ha.
  rewrite collectRun_spec by lia. rewrite (assistantBranch_spec _ _ _ He Ha).
  eexists _, _, _, _. split; [reflexivity|]. split; [reflexivity|].
  simpl app. unfold runGroup.
  rewrite (nth_error_skipn He), (runPrefix_assistant _ _ Ha).
  simpl filter. rewrite Ha.
  set (others := filter isAssistant (runPrefix (skipn (i + 1) entries))).
  set (tr := filter notAssistant (entry :: runPrefix (skipn (i + 1) entries))).
  destruct (processAssistantMessages (entry :: others)) as [ip fr] eqn:Hp.
  simpl fst. simpl snd.
  assert (Hcase : ((0 <? length ip) || (1 <? length (entry :: others))) = true
                  <-> ip <> [] \/ 1 < length (entry :: others)).
  { rewrite orb_true_iff, length_pos_iff, Nat.ltb_lt. reflexivity. }
  destruct ((0 <? length ip) || (1 <? length (entry :: others))) eqn:Hb.
  - simpl. split; [split; intros _; [apply Hcase|]; reflexivity|].
    split; [reflexivity|]. split; [discriminate|].
    intros text Hc Hlen.
    destruct others; [|simpl in Hlen; lia].
    rewrite processAssistantMessages_single in Hp.
    unfold separateInternalProcessing in Hp. rewrite Hc in Hp. simpl in Hp.
    injection Hp as <- <-. simpl in Hb. discriminate.
  - simpl. split.
    { split; [discriminate|]. intros H. apply Hcase in H. discriminate. }
    split; [discriminate|].
    apply orb_false_iff in Hb. destruct Hb as [Hip Hlen].
    split; [|reflexivity].
    intros _. split; [|split; [|reflexivity]].
    + apply Nat.ltb_ge in Hlen. destruct others; [reflexivity|simpl in Hlen; lia].
    + destruct ip; [reflexivity|discriminate].
Qed.

Lemma assistant_branch_group_witness :
  exists j assistantMessages toolResults group,
    collectRun 2 [entryOf assistant [TextContent "hello"]; entryOf user [TextContent "hi"]]
      0 [] [] = Done (j, assistantMessages, toolResults)
    /\ assistantBranch
         [entryOf assistant [TextContent "hello"]; entryOf user [TextContent "hi"]] 0
       = Done (group, j)
    /\ group = RegularMessage (entryOf assistant [TextContent "hello"]).
Proof.
  destruct (assistant_branch_group
              [entryOf assistant [TextContent "hello"]; entryOf user [TextContent "hi"]]
              0 (entryOf assistant [TextContent "hello"]) eq_refl eq_refl)
    as (j & am & tr & group & Hrun & Hbranch & _ & _ & Hreg & _).
  exists j, am, tr, group. split; [exact Hrun|]. split; [exact Hbranch|].
  apply Hreg.
  vm_compute in Hbranch. injection Hbranch as <- _. reflexivity.
Defined.

(** C2, on the code: the non-text items that earlier assistant entries of a
    run push to [finalResponse] do not survive. The last entry's final
    response is assigned over them, so the group's [finalResponse] is that
    of the last collected entry alone; an image in the first of two
    assistant entries is in no field of the group. *)
Theorem earlier_image_not_kept :
  (forall earlier lastMsg,
      snd (processAssistantMessages (earlier ++ [lastMsg])) =
      snd (separateInternalProcessing lastMsg))
  /\ groupMessages [entryOf assistant [ImageContent "image/png" "iVBORw0KGgo"];
                    entryOf assistant [TextContent "done"]]
     = Done [ProcessingWorkflowGroup
               [entryOf assistant [ImageContent "image/png" "iVBORw0KGgo"];
                entryOf assistant [TextContent "done"]]
               []
               [TextContent "done"]
               []
               (generateProcessingSummary [] [] 2)
               ""%string].
Proof.
  split; [exact processAssistantMessages_final|reflexivity].
Qed.

(** C1, on the code: a tool-result-only entry that follows a lone assistant
    entry without internal processing is walked over by the collecting loop
    and then left out, the regular group of the assistant entry being all
    that is pushed. The groups of the result do not hold that entry. *)
Theorem absorbed_tool_result_not_kept :
  groupMessages [entryOf assistant [TextContent "hi"];
                 entryOf user [resultOf "toolu_1"]]
  = Done [RegularMessage (entryOf assistant [TextContent "hi"])]
  /\ flat_map referencedEntries
       [RegularMessage (entryOf assistant [TextContent "hi"])]
     = [entryOf assistant [TextContent "hi"]]
  /\ ~ In (entryOf user [resultOf "toolu_1"])
         (flat_map referencedEntries
            [RegularMessage (entryOf assistant [TextContent "hi"])]).
Proof.
  split; [reflexivity|]. split; [reflexivity|].
  simpl. intros [H|[]]. discriminate H.
Qed.

(** ** The summary's tool clause *)

Section ToolCounts.

Implicit Types (names d : list string) (n x : string) (g : string -> nat).

Lemma distinctNames_In names x : In x (distinctNames names) <-> In x names.
Proof.
  induction names as [|n names IH]; simpl; [reflexivity|].
  rewrite filter_In, IH. split.
  - intros [H|[H _]]; auto.
  - intros [H|H]; [auto|].
    destruct (String.eqb_spec x n) as [->|Hne]; [auto|].
    right. split; [exact H|reflexivity].
Qed.

Lemma distinctNames_NoDup names : NoDup (distinctNames names).
Proof.
  induction names as [|n names IH]; simpl; constructor.
  - rewrite filter_In. intros [_ H]. rewrite String.eqb_refl in H. discriminate.
  - apply NoDup_filter. exact IH.
Qed.

Lemma filter_keeps_all {A : Type} (f : A -> bool) (l : list A) :
  (forall a, In a l -> f a = true) -> filter f l = l.
Proof.
  induction l as [|a l IH]; simpl; intros H; [reflexivity|].
  rewrite (H a) by auto. f_equal. apply IH. auto.
Qed.

(** A further name extends the distinct names only when it is new. *)
Lemma distinctNames_snoc names x :
  distinctNames (names ++ [x]) =
  if in_dec string_dec x names
  then distinctNames names
  else distinctNames names ++ [x].
Proof.
  induction names as [|n names IH]; simpl; [reflexivity|].
  rewrite IH.
  destruct (string_dec n x) as [->|Hne].
  - destruct (in_dec string_dec x names) as [Hin|Hin]; [reflexivity|].
    rewrite filter_app. simpl. rewrite String.eqb_refl. simpl.
    rewrite app_nil_r. reflexivity.
  - destruct (in_dec string_dec x names) as [Hin|Hin]; [reflexivity|].
    rewrite filter_app. simpl.
    destruct (String.eqb_spec x n) as [->|_]; [congruence|]. reflexivity.
Qed.

Lemma occurrences_snoc names x n :
  occurrences (names ++ [x]) n =
  occurrences names n + (if String.eqb n x then 1 else 0).
Proof.
  unfold occurrences. rewrite count_occ_app. simpl.
  destruct (string_dec x n) as [->|Hne].
  - rewrite String.eqb_refl. reflexivity.
  - destruct (String.eqb_spec n x) as [->|_]; [congruence|]. reflexivity.
Qed.

Lemma mapGet_keys d g x :
  mapGet (map (fun n => (n, g n)) d) x =
  if in_dec string_dec x d then Some (g x) else None.
Proof.
  induction d as [|n d IH]; simpl; [reflexivity|].
  destruct (String.eqb_spec n x) as [->|Hne].
  - destruct (string_dec x x); [reflexivity|congruence].
  - rewrite IH. destruct (string_dec n x); [congruence|].
    destruct (in_dec string_dec x d); reflexivity.
Qed.

Lemma mapSet_new d g x v :
  ~ In x d ->
  mapSet (map (fun n => (n, g n)) d) x v = map (fun n => (n, g n)) d ++ [(x, v)].
Proof.
  induction d as [|n d IH]; simpl; intros Hin; [reflexivity|].
  destruct (String.eqb_spec n x) as [->|Hne]; [tauto|].
  rewrite IH by tauto. reflexivity.
Qed.

Lemma mapSet_old d g x v :
  NoDup d -> In x d ->
  mapSet (map (fun n => (n, g n)) d) x v =
  map (fun n => (n, if String.eqb n x then v else g n)) d.
Proof.
  induction d as [|n d IH]; simpl; intros Hnd Hin; [contradiction|].
  inversion Hnd as [|? ? Hn Hd]; subst.
  destruct (String.eqb_spec n x) as [->|Hne].
  - f_equal. apply map_ext_in. intros m Hm.
    destruct (String.eqb_spec m x) as [->|_]; [contradiction|reflexivity].
  - f_equal. apply IH; [exact Hd|]. destruct Hin; [congruence|assumption].
Qed.

(** The map that the counting loop builds: the distinct names in first-seen
    order, each with the number of its occurrences. *)
Lemma countNames_spec names :
  countNames names = map (fun n => (n, occurrences names n)) (distinctNames names).
Proof.
  induction names as [|x names IH] using rev_ind; [reflexivity|].
  unfold countNames in *. rewrite fold_left_app. simpl. rewrite IH.
  rewrite mapGet_keys, distinctNames_snoc.
  destruct (in_dec string_dec x (distinctNames names)) as [Hd|Hd];
    destruct (in_dec string_dec x names) as [Hin|Hin];
    try (exfalso; apply Hin, (proj1 (distinctNames_In names x)), Hd);
    try (exfalso; apply Hd, (proj2 (distinctNames_In names x)), Hin).
  - rewrite mapSet_old by (auto using distinctNames_NoDup).
    apply map_ext. intros n. rewrite occurrences_snoc.
    destruct (String.eqb_spec n x) as [->|_]; [reflexivity|].
    rewrite Nat.add_0_r. reflexivity.
  - rewrite mapSet_new by exact Hd.
    rewrite map_app. simpl. f_equal.
    + apply map_ext_in. intros n Hn. rewrite occurrences_snoc.
      destruct (String.eqb_spec n x) as [->|_]; [contradiction|].
      rewrite Nat.add_0_r. reflexivity.
    + rewrite occurrences_snoc, String.eqb_refl.
      unfold occurrences.
      rewrite (proj1 (count_occ_not_In string_dec names x) Hin). reflexivity.
Qed.

End ToolCounts.

Lemma toolNamesOf_length (internalProcessing : list MessageContent) :
  length (toolNamesOf internalProcessing) =
  length (filter isToolUse internalProcessing).
Proof.
  induction internalProcessing as [|c l IH]; simpl; [reflexivity|].
  destruct c; simpl; auto.
Qed.

Lemma append_empty_r (s : string) : (s ++ "")%string = s.
Proof. induction s as [|a s IH]; simpl; [reflexivity|]. rewrite IH. reflexivity. Qed.

(** C6: for an internal-processing list with at least one tool_use item,
    the summary has the tool clause among its parts, and the clause is the
    one the specification words: after the count, at most the first three
    distinct tool names in first-seen order, a name written [name(count)]
    exactly when it occurs more than once, and the suffix [+N more] exactly
    when there are more than three distinct names, [N] being their number
    less three. The names are those that the code counts, an empty name
    reading as [Unknown]. *)
Theorem tool_clause_spec (internalProcessing : list MessageContent)
    (subsequentToolResults : list ConversationEntry) (assistantMessageCount : nat) :
  existsb isToolUse internalProcessing = true ->
  In (toolClause internalProcessing)
     (summaryParts internalProcessing subsequentToolResults assistantMessageCount)
  /\ generateProcessingSummary internalProcessing subsequentToolResults
       assistantMessageCount
     = join ", " (summaryParts internalProcessing subsequentToolResults
                    assistantMessageCount)
  /\ toolClause internalProcessing = specToolClause (toolNamesOf internalProcessing).
Proof.
  intros Htool.
  assert (Hcount : (0 <? length (filter isToolUse internalProcessing)) = true).
  { apply existsb_exists in Htool. destruct Htool as (c & Hin & Hc).
    apply Nat.ltb_lt.
    assert (Hf : In c (filter isToolUse internalProcessing))
      by (apply filter_In; auto).
    destruct (filter isToolUse internalProcessing); [contradiction|simpl; lia]. }
  assert (Hpart : In (toolClause internalProcessing)
                    (summaryParts internalProcessing subsequentToolResults
                       assistantMessageCount)).
  { unfold summaryParts. rewrite Hcount.
    apply in_or_app. right. apply in_or_app. right.
    apply in_or_app. left. left. reflexivity. }
  split; [exact Hpart|]. split.
  - unfold generateProcessingSummary.
    destruct (summaryParts _ _ _); [contradiction|reflexivity].
  - unfold toolClause, specToolClause, specToolList, specMoreSuffix.
    rewrite countNames_spec, map_map, <- toolNamesOf_length.
    set (names := toolNamesOf internalProcessing).
    assert (Hrender : map (fun n => renderTool (n, occurrences names n))
                          (distinctNames names)
                      = map (specRender names) (distinctNames names))
      by reflexivity.
    rewrite Hrender, firstn_map, !length_map, length_firstn.
    destruct (3 <? length (distinctNames names)) eqn:Hmore.
    + apply Nat.ltb_lt in Hmore.
      replace (Nat.min 3 (length (distinctNames names))) with 3 by lia.
      assert (Hlt : (3 <? length (distinctNames names)) = true)
        by (apply Nat.ltb_lt; lia).
      rewrite Hlt. reflexivity.
    + apply Nat.ltb_ge in Hmore.
      replace (Nat.min 3 (length (distinctNames names)))
        with (length (distinctNames names)) by lia.
      rewrite Nat.ltb_irrefl, append_empty_r. reflexivity.
Qed.

Lemma tool_clause_spec_witness :
  toolClause [ToolUse "a" "Read" JsNull; ToolUse "b" "Edit" JsNull;
              ToolUse "c" "Read" JsNull; ToolUse "d" "Bash" JsNull;
              ToolUse "e" "Grep" JsNull; ToolUse "f" "Glob" JsNull]
  = (iconTools ++ " 6 tools: Read(2), Edit, Bash +2 more")%string.
Proof.
  rewrite (proj2 (proj2 (tool_clause_spec
                           [ToolUse "a" "Read" JsNull; ToolUse "b" "Edit" JsNull;
                            ToolUse "c" "Read" JsNull; ToolUse "d" "Bash" JsNull;
                            ToolUse "e" "Grep" JsNull; ToolUse "f" "Glob" JsNull]
                           [] 1 eq_refl))).
  reflexivity.
Defined.

(** ** Every entry is walked over once *)

Lemma firstn_add_skipn {A : Type} (l : list A) (k : nat) :
  forall i, firstn (i + k) l = firstn i l ++ firstn k (skipn i l).
Proof.
  intros i. revert l. induction i as [|i IH]; intros l; simpl; [reflexivity|].
  destruct l as [|a l]; simpl.
  - rewrite firstn_nil. reflexivity.
  - rewrite IH. reflexivity.
Qed.

Lemma firstn_chunk {A : Type} (l chunk rest : list A) (i : nat) :
  skipn i l = chunk ++ rest ->
  firstn (i + length chunk) l = firstn i l ++ chunk.
Proof.
  intros H. rewrite firstn_add_skipn, H.
  rewrite firstn_app, firstn_all, Nat.sub_diag. simpl.
  rewrite app_nil_r. reflexivity.
Qed.

Lemma runPrefix_split (l : list ConversationEntry) :
  exists rest, l = runPrefix l ++ rest.
Proof.
  induction l as [|e l (rest & IH)]; simpl.
  - exists []. reflexivity.
  - destruct (absorbed e).
    + exists rest. simpl. rewrite <- IH. reflexivity.
    + exists (e :: l). reflexivity.
Qed.

Lemma runPrefix_tool_results (l : list ConversationEntry) :
  filter isAssistant (runPrefix l) = [] ->
  Forall (fun e => isToolResultMessage e = true) (runPrefix l).
Proof.
  induction l as [|e l IH]; simpl; [constructor|].
  unfold absorbed. destruct (isAssistant e) eqn:Ha; simpl.
  - rewrite Ha. discriminate.
  - destruct (isToolResultMessage e) eqn:Ht; [|constructor].
    simpl. rewrite Ha. intros H. constructor; auto.
Qed.

Lemma runGroup_consumes (entry : ConversationEntry) (rest : list ConversationEntry) :
  isAssistant entry = true ->
  consumes (runGroup (entry :: runPrefix rest) entry) (entry :: runPrefix rest).
Proof.
  intros Ha. unfold runGroup.
  destruct (processAssistantMessages _) as [ip fr].
  destruct (_ || _) eqn:Hb; simpl.
  - split; reflexivity.
  - exists (runPrefix rest). split; [reflexivity|]. split; [|auto].
    apply orb_false_iff in Hb. destruct Hb as [_ Hlen].
    apply Nat.ltb_ge in Hlen. simpl in Hlen. rewrite Ha in Hlen. simpl in Hlen.
    apply runPrefix_tool_results.
    destruct (filter isAssistant (runPrefix rest)); [reflexivity|simpl in Hlen; lia].
Qed.

(** The group of an iteration accounts for exactly the entries between the
    cursor and the next cursor. *)
Lemma iteration_consumes (entries : list ConversationEntry) (i : nat)
    (group : ProcessedMessage) (next : nat) :
  i < length entries ->
  iteration entries i = Done (group, next) ->
  exists chunk,
    consumes group chunk /\ firstn next entries = firstn i entries ++ chunk.
Proof.
  intros Hi Hit.
  read_entry entries i entry He.
  pose proof (nth_error_skipn He) as Hs.
  destruct (iteration_inv _ _ _ _ _ He Hit)
    as [(Ha & -> & ->) | [(Ha & b & out & Hf & Ho & _ & Hb) | (Ha & -> & ->)]].
  - exists [entry]. split.
    + simpl. exists []. split; [reflexivity|]. split; [constructor|congruence].
    + apply (firstn_chunk entries [entry] (skipn (i + 1) entries)). exact Hs.
  - pose proof (nth_error_skipn Ho) as Hs1.
    replace (i + 1 + 1) with (i + 2) in Hs1 by lia.
    rewrite (bashBranch_spec _ _ _ _ _ Ho) in Hb.
    assert (Hnone : firstn (i + 2) entries = firstn i entries ++ [entry; out]).
    { apply (firstn_chunk entries [entry; out] (skipn (i + 2) entries)).
      rewrite Hs, Hs1. reflexivity. }
    destruct (nth_error entries (i + 2)) as [c|] eqn:Hc.
    + pose proof (nth_error_skipn Hc) as Hs2.
      replace (i + 2 + 1) with (i + 3) in Hs2 by lia.
      destruct (_ && _); injection Hb as <- <-.
      * exists [entry; out; c]. split.
        -- simpl. exists entry. auto.
        -- apply (firstn_chunk entries [entry; out; c] (skipn (i + 3) entries)).
           rewrite Hs, Hs1, Hs2. reflexivity.
      * exists [entry; out]. split; [|exact Hnone].
        simpl. exists entry. auto.
    + injection Hb as <- <-.
      exists [entry; out]. split; [|exact Hnone].
      simpl. exists entry. auto.
  - exists (runPrefix (skipn i entries)). split.
    + rewrite Hs, (runPrefix_assistant _ _ Ha). apply runGroup_consumes. exact Ha.
    + destruct (runPrefix_split (skipn i entries)) as (rest & Hrest).
      apply (firstn_chunk entries _ rest). exact Hrest.
Qed.

(** The stretches of the successive groups, put end to end, are the entry
    sequence: the scan walks over every entry exactly once and in order.
    What a group keeps of its stretch is another matter ([consumes]). *)
Lemma groupMessages_consumes (entries : list ConversationEntry)
    (groups : list ProcessedMessage) :
  groupMessages entries = Done groups ->
  exists chunks, Forall2 consumes groups chunks /\ concat chunks = entries.
Proof.
  intros Hrun. apply groupMessages_reaches in Hrun.
  assert (Hinv : forall i groups,
             cursorAt entries i groups ->
             exists chunks,
               Forall2 consumes groups chunks /\ concat chunks = firstn i entries).
  { clear. intros i groups H.
    induction H as [|i groups group next Hc (chunks & Hall & Hcat) Hi Hit].
    - exists []. split; [constructor|reflexivity].
    - destruct (iteration_consumes _ _ _ _ Hi Hit) as (chunk & Hg & Hnext).
      exists (chunks ++ [chunk]). split.
      + apply Forall2_app; [exact Hall|]. constructor; [exact Hg|constructor].
      + rewrite concat_app, Hcat, Hnext. simpl. rewrite app_nil_r. reflexivity. }
  destruct (Hinv _ _ Hrun) as (chunks & Hall & Hcat).
  exists chunks. split; [exact Hall|]. rewrite Hcat. apply firstn_all.
Qed.

(** * Further properties of the viewer *)

(** ** escapeHtml *)

Lemma append_assoc (s1 s2 s3 : string) :
  ((s1 ++ s2) ++ s3 = s1 ++ (s2 ++ s3))%string.
Proof. induction s1 as [|a s1 IH]; simpl; [reflexivity|]. rewrite IH. reflexivity. Qed.

Lemma replaceAll_app (c : ascii) (by_ s1 s2 : string) :
  replaceAll c by_ (s1 ++ s2) = (replaceAll c by_ s1 ++ replaceAll c by_ s2)%string.
Proof.
  induction s1 as [|a s1 IH]; simpl; [reflexivity|].
  rewrite IH. destruct (Ascii.eqb a c); simpl; [|reflexivity].
  rewrite append_assoc. reflexivity.
Qed.

Lemma escapePasses_app (s1 s2 : string) :
  escapePasses (s1 ++ s2) = (escapePasses s1 ++ escapePasses s2)%string.
Proof. unfold escapePasses. rewrite !replaceAll_app. reflexivity. Qed.

(** The shape of [escapeChar], character by character. *)
Lemma escapeChar_cases (a : ascii) :
  (a = ampersand /\ escapeChar a = "&amp;"%string)
  \/ (a = lessThan /\ escapeChar a = "&lt;"%string)
  \/ (a = greaterThan /\ escapeChar a = "&gt;"%string)
  \/ (a = doubleQuote /\ escapeChar a = "&quot;"%string)
  \/ (a = singleQuote /\ escapeChar a = "&#39;"%string)
  \/ (a <> ampersand /\ isMarkupChar a = false
      /\ escapeChar a = String a EmptyString).
Proof.
  unfold escapeChar, isMarkupChar.
  destruct (Ascii.eqb_spec a ampersand) as [->|Ha]; [auto|].
  destruct (Ascii.eqb_spec a lessThan) as [->|Hl]; [auto|].
  destruct (Ascii.eqb_spec a greaterThan) as [->|Hg]; [auto 6|].
  destruct (Ascii.eqb_spec a doubleQuote) as [->|Hd]; [auto 6|].
  destruct (Ascii.eqb_spec a singleQuote) as [->|Hs]; [auto 7|].
  do 5 right. auto.
Qed.

Lemma escapePasses_char (a : ascii) :
  escapePasses (String a EmptyString) = escapeChar a.
Proof.
  destruct (escapeChar_cases a)
    as [(-> & ->) | [(-> & ->) | [(-> & ->) | [(-> & ->) | [(-> & ->) | (Ha & Hm & ->)]]]]];
    try reflexivity.
  unfold isMarkupChar in Hm.
  apply orb_false_iff in Hm. destruct Hm as [Hm Hs].
  apply orb_false_iff in Hm. destruct Hm as [Hm Hd].
  apply orb_false_iff in Hm. destruct Hm as [Hl Hg].
  apply Ascii.eqb_neq in Ha.
  unfold escapePasses. simpl. rewrite Ha. simpl. rewrite Hl. simpl.
  rewrite Hg. simpl. rewrite Hd. simpl. rewrite Hs. reflexivity.
Qed.

Lemma escapePasses_each (s : string) : escapePasses s = escapeEach s.
Proof.
  induction s as [|a s IH]; [reflexivity|].
  change (String a s) with (String a EmptyString ++ s)%string.
  rewrite escapePasses_app, escapePasses_char, IH. reflexivity.
Qed.

Lemma occursIn_app (c : ascii) (s1 s2 : string) :
  occursIn c (s1 ++ s2) = occursIn c s1 || occursIn c s2.
Proof.
  induction s1 as [|a s1 IH]; simpl; [reflexivity|].
  rewrite IH, orb_assoc. reflexivity.
Qed.

Lemma isMarkupChar_cases (c : ascii) :
  isMarkupChar c = true ->
  c = lessThan \/ c = greaterThan \/ c = doubleQuote \/ c = singleQuote.
Proof.
  unfold isMarkupChar. rewrite !orb_true_iff, !Ascii.eqb_eq. tauto.
Qed.

Lemma escapeChar_no_markup (a c : ascii) :
  isMarkupChar c = true -> occursIn c (escapeChar a) = false.
Proof.
  intros Hc.
  destruct (escapeChar_cases a)
    as [(-> & ->) | [(-> & ->) | [(-> & ->) | [(-> & ->) | [(-> & ->) | (Ha & Hm & ->)]]]]];
    try (destruct (isMarkupChar_cases c Hc) as [-> | [-> | [-> | ->]]]; reflexivity).
  simpl. rewrite orb_false_r. apply Ascii.eqb_neq. intros ->. congruence.
Qed.

Lemma escapeChar_injective (a b : ascii) (r1 r2 : string) :
  (escapeChar a ++ r1)%string = (escapeChar b ++ r2)%string -> a = b /\ r1 = r2.
Proof.
  intros H.
  destruct (escapeChar_cases a)
    as [(-> & Ea) | [(-> & Ea) | [(-> & Ea) | [(-> & Ea) | [(-> & Ea) | (Ha & _ & Ea)]]]]];
  destruct (escapeChar_cases b)
    as [(-> & Eb) | [(-> & Eb) | [(-> & Eb) | [(-> & Eb) | [(-> & Eb) | (Hb & _ & Eb)]]]]];
  rewrite Ea in H; rewrite ?Eb in H; simpl in H;
  try discriminate H;
  try (injection H as H; split; [reflexivity|exact H]);
  try (injection H as H1 H2; exfalso; (apply Ha; exact H1) || (apply Hb; symmetry; exact H1));
  try (injection H as H1 H2; split; assumption).
Qed.

Lemma escapeHtml_some (s : string) : escapeHtml (Some s) = escapeEach s.
Proof.
  unfold escapeHtml. destruct s as [|a s]; [reflexivity|].
  simpl truthyString. cbv iota. apply escapePasses_each.
Qed.

(** X1: the five replacements made one after the other amount to replacing
    every character of the text once by its own entity: the ampersands that
    the first pass writes are not escaped again, and an absent or empty text
    gives the empty string. *)
Theorem escapeHtml_each (text : option string) :
  escapeHtml text =
  escapeEach (match text with Some s => s | None => EmptyString end).
Proof.
  destruct text as [s|].
  - apply escapeHtml_some.
  - reflexivity.
Qed.

(** X2: whatever the text, the escaped string contains no [<], no [>], no
    double quote and no single quote. *)
Theorem escapeHtml_no_markup (text : option string) (c : ascii) :
  isMarkupChar c = true -> occursIn c (escapeHtml text) = false.
Proof.
  intros Hc. destruct text as [s|]; [|reflexivity].
  rewrite escapeHtml_some.
  induction s as [|a s IH]; [reflexivity|].
  simpl. rewrite occursIn_app, IH, (escapeChar_no_markup a c Hc). reflexivity.
Qed.

Lemma escapeHtml_no_markup_witness :
  occursIn lessThan (escapeHtml (Some "<script>alert('x')</script>"%string)) = false.
Proof. apply escapeHtml_no_markup. reflexivity. Defined.

(** X3: escaping loses nothing: two texts with the same escaped form are
    the same text. *)
Theorem escapeHtml_injective (s1 s2 : string) :
  escapeHtml (Some s1) = escapeHtml (Some s2) -> s1 = s2.
Proof.
  rewrite !escapeHtml_some. revert s2.
  induction s1 as [|a s1 IH]; intros [|b s2] H; simpl in H.
  - reflexivity.
  - exfalso. destruct (escapeChar_cases b)
      as [(_ & E) | [(_ & E) | [(_ & E) | [(_ & E) | [(_ & E) | (_ & _ & E)]]]]];
      rewrite E in H; discriminate H.
  - exfalso. destruct (escapeChar_cases a)
      as [(_ & E) | [(_ & E) | [(_ & E) | [(_ & E) | [(_ & E) | (_ & _ & E)]]]]];
      rewrite E in H; discriminate H.
  - destruct (escapeChar_injective _ _ _ _ H) as [-> Hr].
    f_equal. apply IH. exact Hr.
Qed.

Lemma escapeHtml_injective_witness : "a<b&c"%string = "a<b&c"%string.
Proof. apply escapeHtml_injective. reflexivity. Defined.

(** X4: escaping a text built from two pieces is the same as escaping the
    pieces and joining them. *)
Theorem escapeHtml_app (s1 s2 : string) :
  escapeHtml (Some (s1 ++ s2)%string) =
  (escapeHtml (Some s1) ++ escapeHtml (Some s2))%string.
Proof.
  rewrite !escapeHtml_some. induction s1 as [|a s1 IH]; simpl; [reflexivity|].
  rewrite IH, append_assoc. reflexivity.
Qed.

(** ** separateInternalProcessing *)

Lemma lastTextPos_ge (cs : list MessageContent) :
  forall start p, lastTextPos cs start = Some p -> start <= p.
Proof.
  induction cs as [|c cs IH]; intros start p; simpl; [discriminate|].
  destruct (lastTextPos cs (S start)) as [q|] eqn:Hq.
  - intros H. injection H as <-. apply IH in Hq. lia.
  - destruct (isText c); [|discriminate]. intros H. injection H as <-. lia.
Qed.

Lemma lastTextPos_None (cs : list MessageContent) :
  forall start, lastTextPos cs start = None <-> existsb isText cs = false.
Proof.
  induction cs as [|c cs IH]; intros start; simpl; [tauto|].
  destruct (lastTextPos cs (S start)) as [q|] eqn:Hq.
  - split; [discriminate|]. intros H. apply orb_false_iff in H.
    destruct H as [_ H]. apply (IH (S start)) in H. congruence.
  - apply IH in Hq. rewrite Hq, orb_false_r.
    destruct (isText c); split; congruence.
Qed.

Lemma lastOf_cons {A : Type} (a : A) (l : list A) :
  lastOf (a :: l) = match l with [] => Some a | _ :: _ => lastOf l end.
Proof.
  unfold lastOf. destruct l as [|b l]; [reflexivity|].
  simpl. rewrite Nat.sub_0_r. reflexivity.
Qed.

Lemma lastOf_nonempty {A : Type} (a : A) (l : list A) :
  exists x, lastOf (a :: l) = Some x.
Proof.
  unfold lastOf. destruct (nth_error (a :: l) (length (a :: l) - 1)) eqn:H; [eauto|].
  apply nth_error_None in H. simpl in H. lia.
Qed.

(** [lastTextContent] is the item at the position of the last text item. *)
Lemma lastTextContent_pos (cs : list MessageContent) :
  forall start,
    let textContents :=
      filter (fun p : nat * MessageContent => isText (snd p))
             (combine (seq start (length cs)) cs) in
    option_map fst (if 0 <? length textContents then lastOf textContents else None)
    = lastTextPos cs start.
Proof.
  induction cs as [|c cs IH]; intros start; [reflexivity|].
  simpl. specialize (IH (S start)). simpl in IH.
  set (tc := filter (fun p : nat * MessageContent => isText (snd p))
                    (combine (seq (S start) (length cs)) cs)) in *.
  rewrite <- IH.
  destruct (isText c); simpl.
  - rewrite lastOf_cons. destruct tc as [|q tc]; [reflexivity|].
    simpl. destruct (lastOf_nonempty q tc) as (x & ->). reflexivity.
  - destruct tc as [|q tc]; [reflexivity|].
    simpl. destruct (lastOf_nonempty q tc) as (x & ->). reflexivity.
Qed.

(** The pass over the items from position [start] on, given where the last
    text item of the rest is. *)
Lemma separate_fold (last : option (nat * MessageContent))
    (cs : list MessageContent) :
  forall start ip0 fr0,
    existsb isText cs = false \/ option_map fst last = lastTextPos cs start ->
    fold_left
      (fun (acc : list MessageContent * list MessageContent) p =>
         let '(internalProcessing, finalResponse) := acc in
         let c := snd p in
         if isToolUse c || isThinking c || (isText c && negb (sameItem p last))
         then (internalProcessing ++ [c], finalResponse)
         else if sameItem p last
         then (internalProcessing, finalResponse ++ [c])
         else (internalProcessing, finalResponse ++ [c]))
      (combine (seq start (length cs)) cs) (ip0, fr0)
    = (ip0 ++ fst (separateFrom cs), fr0 ++ snd (separateFrom cs)).
Proof.
  induction cs as [|c cs IH]; intros start ip0 fr0 Hlast.
  - simpl. rewrite !app_nil_r. reflexivity.
  - simpl combine. simpl fold_left. simpl separateFrom.
    destruct (separateFrom cs) as [ip fr] eqn:Hsep.
    assert (Hrest : existsb isText cs = false
                    \/ option_map fst last = lastTextPos cs (S start)).
    { destruct (existsb isText cs) eqn:Hcs; [right|left; reflexivity].
      destruct Hlast as [Hlast|Hlast].
      - simpl in Hlast. apply orb_false_iff in Hlast. destruct Hlast; congruence.
      - simpl in Hlast.
        destruct (lastTextPos cs (S start)) eqn:Hp; [exact Hlast|].
        apply lastTextPos_None in Hp. congruence. }
    assert (Hsame : isText c = true ->
                    sameItem (start, c) last = negb (existsb isText cs)).
    { intros Hc. destruct Hlast as [Hlast|Hlast].
      - simpl in Hlast. rewrite Hc in Hlast. discriminate.
      - simpl in Hlast. rewrite Hc in Hlast.
        destruct (lastTextPos cs (S start)) as [p|] eqn:Hp.
        + assert (Hex : existsb isText cs = true).
          { destruct (existsb isText cs) eqn:E; [reflexivity|].
            apply (lastTextPos_None cs (S start)) in E. congruence. }
          rewrite Hex. simpl. apply lastTextPos_ge in Hp.
          destruct last as [[q x]|]; simpl in *; [|discriminate].
          injection Hlast as ->. apply Nat.eqb_neq. lia.
        + apply lastTextPos_None in Hp. rewrite Hp. simpl.
          destruct last as [[q x]|]; simpl in *; [|discriminate].
          injection Hlast as ->. apply Nat.eqb_refl. }
    simpl snd.
    destruct (isToolUse c) eqn:Htu; simpl.
    { rewrite (IH _ _ _ Hrest), ?Hsep. simpl. rewrite <- app_assoc. reflexivity. }
    destruct (isThinking c) eqn:Hth; simpl.
    { rewrite (IH _ _ _ Hrest), ?Hsep. simpl. rewrite <- app_assoc. reflexivity. }
    destruct (isText c) eqn:Htx; simpl.
    + rewrite (Hsame eq_refl). rewrite negb_involutive.
      destruct (existsb isText cs); simpl;
        rewrite (IH _ _ _ Hrest), ?Hsep; simpl; rewrite <- app_assoc; reflexivity.
    + assert (Hif : (if sameItem (start, c) last
                     then (ip0, fr0 ++ [c]) else (ip0, fr0 ++ [c]))
                    = (ip0, fr0 ++ [c])) by (destruct (sameItem _ _); reflexivity).
      rewrite Hif, (IH _ _ _ Hrest), ?Hsep. simpl. rewrite <- app_assoc. reflexivity.
Qed.

(** The split computed with positions is the split read item by item. *)
Lemma separateInternalProcessing_spec (entry : ConversationEntry) :
  separateInternalProcessing entry = separateFrom (content (message entry)).
Proof.
  unfold separateInternalProcessing, indexed.
  rewrite separate_fold.
  - simpl. destruct (separateFrom _); reflexivity.
  - right. apply lastTextContent_pos.
Qed.

Lemma filter_isText_none (cs : list MessageContent) :
  existsb isText cs = false -> filter isText cs = [].
Proof.
  induction cs as [|c cs IH]; simpl; [reflexivity|].
  destruct (isText c); simpl; [discriminate|exact IH].
Qed.

Lemma filter_isText_some (cs : list MessageContent) :
  existsb isText cs = true -> exists t ts, filter isText cs = t :: ts.
Proof.
  induction cs as [|c cs IH]; simpl; [discriminate|].
  destruct (isText c); simpl; [eauto|exact IH].
Qed.

(** X5: [separateInternalProcessing] deals every content item of the entry
    to exactly one of its two lists: internal processing followed by the
    final response is a rearrangement of the content, nothing lost and
    nothing repeated. *)
Theorem separateInternalProcessing_partition (entry : ConversationEntry) :
  Permutation
    (fst (separateInternalProcessing entry) ++ snd (separateInternalProcessing entry))
    (content (message entry)).
Proof.
  rewrite separateInternalProcessing_spec.
  induction (content (message entry)) as [|c cs IH]; simpl; [constructor|].
  destruct (separateFrom cs) as [ip fr]. simpl in IH.
  destruct (_ || _); simpl.
  - constructor. exact IH.
  - apply Permutation_sym, Permutation_cons_app, Permutation_sym. exact IH.
Qed.

(** X6: the final response of an entry holds no tool_use and no thinking
    item; its text items are the last text item of the content and no
    other, and next to it come, in their order, the items that are neither
    text nor tool_use nor thinking. *)
Theorem separateInternalProcessing_final (entry : ConversationEntry) :
  let finalResponse := snd (separateInternalProcessing entry) in
  forallb (fun c => negb (isToolUse c || isThinking c)) finalResponse = true
  /\ filter isText finalResponse
     = optionList (lastOf (filter isText (content (message entry))))
  /\ filter (fun c => negb (isInternalKind c)) finalResponse
     = filter (fun c => negb (isInternalKind c)) (content (message entry)).
Proof.
  rewrite separateInternalProcessing_spec.
  induction (content (message entry)) as [|c cs IH]; simpl; [auto|].
  destruct (separateFrom cs) as [ip fr]. simpl in IH.
  destruct IH as (Hno & Htext & Hother).
  unfold isInternalKind in *.
  destruct (isToolUse c) eqn:Htu; simpl.
  { destruct c; try discriminate. simpl. auto. }
  destruct (isThinking c) eqn:Hth; simpl.
  { destruct c; try discriminate. simpl. auto. }
  destruct (isText c) eqn:Htx; simpl.
  - destruct (existsb isText cs) eqn:Hex; simpl.
    + split; [exact Hno|]. split; [|exact Hother].
      destruct (filter_isText_some cs Hex) as (t & ts & Hts).
      rewrite Htext, Hts, (lastOf_cons c). reflexivity.
    + rewrite Htu, Hth, Htx. simpl.
      split; [exact Hno|]. split; [|exact Hother].
      rewrite Htext, (filter_isText_none cs Hex). reflexivity.
  - rewrite Htu, Hth, Htx. simpl. split; [exact Hno|].
    split; [exact Htext|]. f_equal. exact Hother.
Qed.

Lemma separateFrom_internal (cs : list MessageContent) :
  forallb isInternalKind (fst (separateFrom cs)) = true
  /\ filter isToolUse (fst (separateFrom cs)) = filter isToolUse cs
  /\ filter isThinking (fst (separateFrom cs)) = filter isThinking cs.
Proof.
  induction cs as [|c cs IH]; simpl; [auto|].
  destruct (separateFrom cs) as [ip fr]. simpl in IH.
  destruct IH as (Hkind & Htu & Hth).
  unfold isInternalKind in *.
  destruct c; simpl; try (rewrite ?Hkind, ?Htu, ?Hth; auto; fail).
  destruct (existsb isText cs); simpl; rewrite ?Hkind, ?Htu, ?Hth; auto.
Qed.

Lemma separate_internal (entry : ConversationEntry) :
  forallb isInternalKind (fst (separateInternalProcessing entry)) = true
  /\ filter isToolUse (fst (separateInternalProcessing entry))
     = filter isToolUse (content (message entry))
  /\ filter isThinking (fst (separateInternalProcessing entry))
     = filter isThinking (content (message entry)).
Proof. rewrite separateInternalProcessing_spec. apply separateFrom_internal. Qed.

(** X7: the internal processing of an entry is made of tool_use, thinking
    and text items only, and it has every tool_use item and every thinking
    item of the content, in the order of the content. *)
Theorem separateInternalProcessing_internal (entry : ConversationEntry) :
  let internalProcessing := fst (separateInternalProcessing entry) in
  forallb isInternalKind internalProcessing = true
  /\ filter isToolUse internalProcessing
     = filter isToolUse (content (message entry))
  /\ filter isThinking internalProcessing
     = filter isThinking (content (message entry)).
Proof.
  cbv zeta. rewrite separateInternalProcessing_spec.
  destruct (separateFrom_internal (content (message entry))) as (Hkind & Htu & Hth).
  split; [exact Hkind|]. split; [exact Htu|exact Hth].
Qed.

(** ** The pass over the collected assistant entries *)

Lemma reclassify_fold (l : list MessageContent) :
  forall ip0 fr0,
    fold_left
      (fun (acc' : list MessageContent * list MessageContent) c =>
         let '(allInternalProcessing', finalResponse') := acc' in
         if isText c
         then (allInternalProcessing' ++ [c], finalResponse')
         else (allInternalProcessing', finalResponse' ++ [c]))
      l (ip0, fr0)
    = (ip0 ++ filter isText l, fr0 ++ filter (fun c => negb (isText c)) l).
Proof.
  induction l as [|c l IH]; intros ip0 fr0; simpl.
  - rewrite !app_nil_r. reflexivity.
  - destruct (isText c); simpl; rewrite IH, <- app_assoc; reflexivity.
Qed.

Lemma earlier_fold (total : nat) (l : list ConversationEntry) :
  forall start ip0 fr0,
    start + length l < total ->
    exists fr,
      fold_left
        (fun (acc : list MessageContent * list MessageContent)
             (p : nat * ConversationEntry) =>
           let '(allInternalProcessing, finalResponse) := acc in
           let '(index, assistantMsg) := p in
           let '(internalProcessing, msgFinalResponse) :=
             separateInternalProcessing assistantMsg in
           if index =? total - 1
           then (allInternalProcessing ++ internalProcessing, msgFinalResponse)
           else
             fold_left
               (fun (acc' : list MessageContent * list MessageContent) c =>
                  let '(allInternalProcessing', finalResponse') := acc' in
                  if isText c
                  then (allInternalProcessing' ++ [c], finalResponse')
                  else (allInternalProcessing', finalResponse' ++ [c]))
               msgFinalResponse
               (allInternalProcessing ++ internalProcessing, finalResponse))
        (combine (seq start (length l)) l) (ip0, fr0)
      = (ip0 ++ flat_map earlierInternal l, fr).
Proof.
  match goal with
  | |- forall start ip0 fr0, _ -> exists fr, fold_left ?f _ _ = _ => set (step := f)
  end.
  induction l as [|e l IH]; intros start ip0 fr0 Hlt.
  - exists fr0. simpl. rewrite app_nil_r. reflexivity.
  - simpl in Hlt.
    assert (Hstep : step (ip0, fr0) (start, e)
                    = (ip0 ++ earlierInternal e,
                       fr0 ++ filter (fun c => negb (isText c))
                                (snd (separateInternalProcessing e)))).
    { unfold step, earlierInternal.
      destruct (separateInternalProcessing e) as [ip fr].
      assert (Hne : (start =? total - 1) = false) by (apply Nat.eqb_neq; lia).
      rewrite Hne, reclassify_fold. simpl. rewrite <- app_assoc. reflexivity. }
    change (combine (seq start (length (e :: l))) (e :: l))
      with ((start, e) :: combine (seq (S start) (length l)) l).
    change (fold_left step ((start, e) :: combine (seq (S start) (length l)) l)
              (ip0, fr0))
      with (fold_left step (combine (seq (S start) (length l)) l)
              (step (ip0, fr0) (start, e))).
    rewrite Hstep.
    destruct (IH (S start) (ip0 ++ earlierInternal e)
                 (fr0 ++ filter (fun c => negb (isText c))
                          (snd (separateInternalProcessing e)))) as (fr' & Hfold);
      [lia|].
    exists fr'. rewrite Hfold. simpl. rewrite <- app_assoc. reflexivity.
Qed.

(** The outcome of the pass for a run of assistant entries. *)
Lemma processAssistantMessages_spec (earlier : list ConversationEntry)
    (lastMsg : ConversationEntry) :
  processAssistantMessages (earlier ++ [lastMsg]) =
  (flat_map earlierInternal earlier ++ fst (separateInternalProcessing lastMsg),
   snd (separateInternalProcessing lastMsg)).
Proof.
  unfold processAssistantMessages.
  rewrite indexed_snoc, fold_left_app. unfold indexed.
  destruct (earlier_fold (length (earlier ++ [lastMsg])) earlier 0 [] [])
    as (fr & Hfold).
  { rewrite length_app. simpl. lia. }
  rewrite Hfold. simpl.
  destruct (separateInternalProcessing lastMsg) as [ip' fr'].
  rewrite length_app. simpl.
  replace (length earlier + 1 - 1) with (length earlier) by lia.
  rewrite Nat.eqb_refl. reflexivity.
Qed.

Lemma filter_flat_map {A B : Type} (f : B -> bool) (g : A -> list B) (l : list A) :
  filter f (flat_map g l) = flat_map (fun a => filter f (g a)) l.
Proof.
  induction l as [|a l IH]; simpl; [reflexivity|].
  rewrite filter_app, IH. reflexivity.
Qed.

Lemma filter_disjoint {A : Type} (f g : A -> bool) (l : list A) :
  (forall a, g a = true -> f a = false) -> filter f (filter g l) = [].
Proof.
  intros H. induction l as [|a l IH]; simpl; [reflexivity|].
  destruct (g a) eqn:Hg; simpl; [rewrite (H a Hg)|]; exact IH.
Qed.

Lemma snoc_cases {A : Type} (l : list A) :
  l = [] \/ exists earlier lastItem, l = earlier ++ [lastItem].
Proof.
  induction l as [|a l _] using rev_ind; [left; reflexivity|].
  right. exists l, a. reflexivity.
Qed.

(** X8: the internal processing of a run has every tool_use item and every
    thinking item of every collected assistant entry, in the order of the
    conversation, and nothing else of these two kinds. *)
Theorem processAssistantMessages_tools (assistantMessages : list ConversationEntry) :
  filter isToolUse (fst (processAssistantMessages assistantMessages))
  = filter isToolUse (allContent assistantMessages)
  /\ filter isThinking (fst (processAssistantMessages assistantMessages))
     = filter isThinking (allContent assistantMessages).
Proof.
  destruct (snoc_cases assistantMessages) as [->|(earlier & lastMsg & ->)];
    [split; reflexivity|].
  rewrite processAssistantMessages_spec. unfold allContent. simpl fst.
  rewrite flat_map_app, !filter_app, !filter_flat_map. simpl.
  rewrite !app_nil_r.
  destruct (separate_internal lastMsg) as (_ & Htu & Hth).
  simpl in Htu, Hth. rewrite Htu, Hth.
  split; f_equal; apply flat_map_ext; intros e; unfold earlierInternal;
    rewrite filter_app;
    destruct (separate_internal e) as (_ & Htu' & Hth');
    simpl in Htu', Hth'; rewrite ?Htu', ?Hth';
    rewrite filter_disjoint, app_nil_r; try reflexivity;
    intros c Hc; destruct c; try discriminate; reflexivity.
Qed.

Lemma separateFrom_count (f : MessageContent -> bool) (cs : list MessageContent) :
  length (filter f (fst (separateFrom cs))) + length (filter f (snd (separateFrom cs)))
  = length (filter f cs).
Proof.
  induction cs as [|c cs IH]; simpl; [reflexivity|].
  destruct (separateFrom cs) as [ip fr]. simpl in IH.
  destruct (_ || _); simpl; destruct (f c); simpl; lia.
Qed.

Lemma filter_idempotent {A : Type} (f : A -> bool) (l : list A) :
  filter f (filter f l) = filter f l.
Proof.
  induction l as [|a l IH]; simpl; [reflexivity|].
  destruct (f a) eqn:Hf; simpl; rewrite ?Hf, IH; reflexivity.
Qed.

Lemma processAssistantMessages_kinds (assistantMessages : list ConversationEntry) :
  forallb isInternalKind (fst (processAssistantMessages assistantMessages)) = true.
Proof.
  destruct (snoc_cases assistantMessages) as [->|(earlier & lastMsg & ->)];
    [reflexivity|].
  rewrite processAssistantMessages_spec. simpl fst.
  rewrite forallb_app.
  destruct (separate_internal lastMsg) as (Hk & _ & _).
  simpl in Hk. rewrite Hk, andb_true_r.
  induction earlier as [|e earlier IH]; simpl; [reflexivity|].
  rewrite forallb_app, IH, andb_true_r. unfold earlierInternal.
  rewrite forallb_app.
  destruct (separate_internal e) as (Hk' & _ & _).
  simpl in Hk'. rewrite Hk'. simpl.
  apply forallb_forall. intros c Hc. apply filter_In in Hc.
  destruct Hc as [_ Hc]. unfold isInternalKind. rewrite Hc.
  rewrite !orb_true_r. reflexivity.
Qed.

(** X9: every item of a run's internal processing is counted by exactly one
    of the three counters of the summary: tool uses, thinking steps and
    intermediate texts add up to the whole list. *)
Theorem processAssistantMessages_counted (assistantMessages : list ConversationEntry) :
  let internalProcessing := fst (processAssistantMessages assistantMessages) in
  length internalProcessing
  = length (filter isToolUse internalProcessing)
    + length (filter isThinking internalProcessing)
    + length (filter isText internalProcessing).
Proof.
  pose proof (processAssistantMessages_kinds assistantMessages) as Hk.
  simpl. induction (fst (processAssistantMessages assistantMessages)) as [|c l IH];
    [reflexivity|].
  simpl in Hk. apply andb_true_iff in Hk. destruct Hk as [Hc Hl].
  specialize (IH Hl). destruct c; simpl; try lia; discriminate.
Qed.

(** X10: across a run no text item is lost or repeated: the text items of
    the internal processing and of the final response are together as many
    as the collected assistant entries hold. *)
Theorem processAssistantMessages_texts (assistantMessages : list ConversationEntry) :
  length (filter isText (fst (processAssistantMessages assistantMessages)))
  + length (filter isText (snd (processAssistantMessages assistantMessages)))
  = length (filter isText (allContent assistantMessages)).
Proof.
  destruct (snoc_cases assistantMessages) as [->|(earlier & lastMsg & ->)];
    [reflexivity|].
  rewrite processAssistantMessages_spec. unfold allContent. simpl fst. simpl snd.
  rewrite flat_map_app, !filter_app, !length_app. simpl. rewrite app_nil_r.
  rewrite <- Nat.add_assoc.
  rewrite separateInternalProcessing_spec, separateFrom_count. f_equal.
  induction earlier as [|e earlier IH]; simpl; [reflexivity|].
  rewrite !filter_app, !length_app, IH. f_equal.
  unfold earlierInternal. rewrite filter_app, length_app, filter_idempotent.
  rewrite separateInternalProcessing_spec. apply separateFrom_count.
Qed.

(** ** The fallback of the summary *)

Lemma join_startsWithIcon (part : string) (parts : list string) :
  startsWithIcon part = true ->
  startsWithIcon (join ", " (part :: parts)) = true.
Proof.
  intros H. destruct part as [|a part]; [discriminate|].
  destruct parts; simpl; exact H.
Qed.

Lemma toolClause_startsWithIcon (internalProcessing : list MessageContent) :
  startsWithIcon (toolClause internalProcessing) = true.
Proof. unfold toolClause. destruct (_ <? _); reflexivity. Qed.

Lemma summaryParts_icons (internalProcessing : list MessageContent)
    (subsequentToolResults : list ConversationEntry) (assistantMessageCount : nat) :
  Forall (fun part => startsWithIcon part = true)
    (summaryParts internalProcessing subsequentToolResults assistantMessageCount).
Proof.
  unfold summaryParts.
  repeat (apply Forall_app; split);
    match goal with
    | |- Forall _ (if ?b then _ else _) => destruct b
    end;
    constructor; try constructor; try reflexivity.
  apply toolClause_startsWithIcon.
Qed.

Lemma filter_nil_iff {A : Type} (f : A -> bool) (l : list A) :
  (0 <? length (filter f l)) = existsb f l.
Proof.
  induction l as [|a l IH]; simpl; [reflexivity|].
  destruct (f a); simpl; [reflexivity|exact IH].
Qed.

Lemma summaryParts_nil (internalProcessing : list MessageContent)
    (subsequentToolResults : list ConversationEntry) (assistantMessageCount : nat) :
  summaryParts internalProcessing subsequentToolResults assistantMessageCount = []
  <-> assistantMessageCount <= 1
      /\ subsequentToolResults = []
      /\ existsb isInternalKind internalProcessing = false.
Proof.
  unfold summaryParts. rewrite !filter_nil_iff.
  assert (Hk : existsb isInternalKind internalProcessing
               = existsb isToolUse internalProcessing
                 || existsb isThinking internalProcessing
                 || existsb isText internalProcessing).
  { induction internalProcessing as [|c l IH]; [reflexivity|].
    simpl. rewrite IH. unfold isInternalKind.
    destruct (isToolUse c), (isThinking c), (isText c); simpl;
      rewrite ?orb_true_r; reflexivity. }
  rewrite Hk.
  destruct (1 <? assistantMessageCount) eqn:Hn;
    [split; [discriminate|intros (H & _); apply Nat.ltb_lt in Hn; lia]|].
  apply Nat.ltb_ge in Hn.
  destruct (existsb isThinking internalProcessing);
    [split; [discriminate|intros (_ & _ & H); rewrite orb_true_r in H; discriminate]|].
  destruct (existsb isToolUse internalProcessing);
    [split; [discriminate|intros (_ & _ & H); discriminate]|].
  destruct (existsb isText internalProcessing);
    [split; [discriminate|intros (_ & _ & H); discriminate]|].
  destruct subsequentToolResults as [|t tr]; simpl.
  - split; auto.
  - split; [discriminate|intros (_ & H & _); discriminate].
Qed.

(** A summary with a clause starts with the icon of its first clause. *)
Lemma summary_icon (internalProcessing : list MessageContent)
    (subsequentToolResults : list ConversationEntry) (assistantMessageCount : nat) :
  summaryParts internalProcessing subsequentToolResults assistantMessageCount <> [] ->
  startsWithIcon
    (generateProcessingSummary internalProcessing subsequentToolResults
       assistantMessageCount) = true.
Proof.
  intros Hne.
  pose proof (summaryParts_icons internalProcessing subsequentToolResults
                assistantMessageCount) as Hicons.
  unfold generateProcessingSummary.
  destruct (summaryParts internalProcessing subsequentToolResults
              assistantMessageCount) as [|part parts]; [congruence|].
  change (0 <? length (part :: parts)) with true. cbv iota.
  inversion Hicons as [|? ? Hpart _]; subst.
  apply join_startsWithIcon. exact Hpart.
Qed.

Lemma summary_fallback_inv (internalProcessing : list MessageContent)
    (subsequentToolResults : list ConversationEntry) (assistantMessageCount : nat) :
  generateProcessingSummary internalProcessing subsequentToolResults
    assistantMessageCount = "Processing steps"%string ->
  summaryParts internalProcessing subsequentToolResults assistantMessageCount = [].
Proof.
  intros Hs.
  destruct (summaryParts internalProcessing subsequentToolResults
              assistantMessageCount) as [|part parts] eqn:Hp; [reflexivity|].
  assert (Hne : summaryParts internalProcessing subsequentToolResults
                  assistantMessageCount <> []) by (rewrite Hp; discriminate).
  apply summary_icon in Hne. rewrite Hs in Hne. discriminate.
Qed.


(** X12: the fallback text is never the summary of a group that
    [groupMessages] returns: a processing workflow is pushed only for more
    than one assistant message or a non-empty internal processing, and
    either gives the summary a clause. *)
Theorem groupMessages_summary_clause (entries : list ConversationEntry)
    (groups : list ProcessedMessage) :
  groupMessages entries = Done groups -> Forall summaryHasClause groups.
Proof.
  apply groups_invariant. intros i group next Hi Hit.
  read_entry entries i entry He.
  destruct (iteration_inv _ _ _ _ _ He Hit)
    as [(_ & -> & _) | [(_ & b & out & _ & Ho & _ & Hb) | (_ & -> & _)]].
  - exact I.
  - destruct (bashBranch_inv _ _ _ _ _ _ _ Ho Hb) as (c & -> & _). exact I.
  - unfold runGroup.
    set (am := filter isAssistant (runPrefix (skipn i entries))).
    pose proof (processAssistantMessages_kinds am) as Hk.
    destruct (processAssistantMessages am) as [ip fr]. simpl in Hk.
    destruct ((0 <? length ip) || (1 <? length am)) eqn:Hcond; [|exact I].
    simpl. intros Hs. apply summary_fallback_inv, summaryParts_nil in Hs.
    destruct Hs as (Hn & _ & Hnone).
    apply orb_true_iff in Hcond. destruct Hcond as [Hip|Ham].
    + destruct ip as [|c ip]; [discriminate|].
      simpl in Hk, Hnone. apply andb_true_iff in Hk. destruct Hk as [Hc _].
      rewrite Hc in Hnone. discriminate.
    + apply Nat.ltb_lt in Ham. lia.
Qed.

Lemma groupMessages_summary_clause_witness :
  Forall summaryHasClause
    [ProcessingWorkflowGroup
       [entryOf assistant [ThinkingContent "t1"]; entryOf assistant [TextContent "final"]]
       [ThinkingContent "t1"] [TextContent "final"] []
       (generateProcessingSummary [ThinkingContent "t1"] [] 2) ""%string].
Proof.
  apply (groupMessages_summary_clause
           [entryOf assistant [ThinkingContent "t1"];
            entryOf assistant [TextContent "final"]]).
  reflexivity.
Defined.

(** ** The groups of the result *)

Lemma runPrefix_roles (l : list ConversationEntry) :
  forallb isAssistant (filter isAssistant (runPrefix l)) = true
  /\ forallb isToolResultMessage (filter notAssistant (runPrefix l)) = true.
Proof.
  induction l as [|e l (IHa & IHt)]; simpl; [auto|].
  unfold absorbed, notAssistant in *.
  destruct (isAssistant e) eqn:Ha; simpl.
  - rewrite Ha. simpl. rewrite Ha. auto.
  - destruct (isToolResultMessage e) eqn:Ht; simpl; [|auto].
    rewrite Ha. simpl. rewrite Ht. auto.
Qed.

Lemma separateFrom_no_internal (cs : list MessageContent) :
  fst (separateFrom cs) = [] ->
  existsb isToolUse cs = false
  /\ existsb isThinking cs = false
  /\ length (filter isText cs) <= 1.
Proof.
  induction cs as [|c cs IH]; simpl; [auto|].
  destruct (separateFrom cs) as [ip fr]. simpl in IH.
  destruct (isToolUse c) eqn:Htu; simpl; [discriminate|].
  destruct (isThinking c) eqn:Hth; simpl; [discriminate|].
  destruct (isText c) eqn:Htx; simpl.
  - destruct (existsb isText cs) eqn:Hex; simpl; [discriminate|].
    intros H. destruct (IH H) as (H1 & H2 & _).
    rewrite (filter_isText_none cs Hex). simpl. auto.
  - intros H. exact (IH H).
Qed.

(** X13: every group that [groupMessages] returns is well formed. A
    processing workflow has a first assistant entry, whose timestamp it
    carries; its assistant entries are assistant entries and its tool
    results tool-result-only entries. A bash workflow holds a Bash tool_use
    item and a tool-result-only entry, and its comment, if any, is a user
    entry that is neither tool-result-only nor sidechain. An assistant
    entry shown as a regular message has no tool_use, no thinking and at
    most one text item. *)
Theorem groupMessages_well_formed (entries : list ConversationEntry)
    (groups : list ProcessedMessage) :
  groupMessages entries = Done groups -> Forall wellFormedGroup groups.
Proof.
  apply groups_invariant. intros i group next Hi Hit.
  read_entry entries i entry He.
  destruct (iteration_inv _ _ _ _ _ He Hit)
    as [(Ha & -> & _) | [(_ & b & out & Hf & Ho & Hr & Hb) | (Ha & -> & _)]].
  - simpl. congruence.
  - rewrite (bashBranch_spec _ _ _ _ _ Ho) in Hb.
    apply find_some in Hf. destruct Hf as [_ Hf].
    destruct (nth_error entries (i + 2)) as [c|] eqn:Hc.
    + destruct (isUser c && negb (isToolResultMessage c)
                && negb (truthyFlag (isSidechain c))) eqn:Hcond;
        injection Hb as <- <-; simpl;
        (split; [exact Hf|split; [exact Hr|]]); intros cm Hcm;
        [|discriminate].
      injection Hcm as <-.
      apply andb_true_iff in Hcond. destruct Hcond as [Hcond Hs].
      apply andb_true_iff in Hcond. destruct Hcond as [Hu Ht].
      apply negb_true_iff in Hs. apply negb_true_iff in Ht. auto.
    + injection Hb as <- <-. simpl.
      split; [exact Hf|split; [exact Hr|]]. intros cm Hcm. discriminate.
  - rewrite (nth_error_skipn He), (runPrefix_assistant _ _ Ha).
    unfold runGroup. simpl filter. rewrite Ha.
    unfold notAssistant at 1. rewrite Ha. simpl negb. cbv iota.
    set (rest := runPrefix (skipn (i + 1) entries)).
    destruct (runPrefix_roles (skipn (i + 1) entries)) as (Hroles & Htr).
    fold rest in Hroles, Htr.
    destruct (processAssistantMessages (entry :: filter isAssistant rest))
      as [ip fr] eqn:Hp.
    destruct ((0 <? length ip) || (1 <? length (entry :: filter isAssistant rest)))
      eqn:Hcond.
    + simpl. split; [exists entry; auto|]. rewrite Ha, Hroles.
      split; [reflexivity|]. split; [exact Htr|]. split; [symmetry; exact Hp|].
      apply orb_true_iff in Hcond. destruct Hcond as [Hip|Ham].
      * left. apply length_pos_iff in Hip. exact Hip.
      * right. apply Nat.ltb_lt in Ham. exact Ham.
    + simpl. intros _.
      apply orb_false_iff in Hcond. destruct Hcond as [Hip Ham].
      apply Nat.ltb_ge in Ham.
      destruct (filter isAssistant rest); [|simpl in Ham; lia].
      rewrite processAssistantMessages_single, separateInternalProcessing_spec in Hp.
      apply separateFrom_no_internal. rewrite Hp. simpl.
      destruct ip; [reflexivity|discriminate].
Qed.

Lemma groupMessages_well_formed_witness :
  Forall wellFormedGroup
    [BashWorkflowGroup bashLs (entryOf user [resultOf "toolu_1"])
       (Some (entryOf user [TextContent "thanks"])) ""%string].
Proof.
  apply (groupMessages_well_formed
           [entryOf assistant [bashLs]; entryOf user [resultOf "toolu_1"];
            entryOf user [TextContent "thanks"]]).
  reflexivity.
Defined.

Lemma filter_split_length {A : Type} (f : A -> bool) (l : list A) :
  length (filter f l) + length (filter (fun a => negb (f a)) l) = length l.
Proof.
  induction l as [|a l IH]; simpl; [reflexivity|].
  destruct (f a); simpl; lia.
Qed.

Lemma consumes_referenced (g : ProcessedMessage) (chunk : list ConversationEntry) :
  consumes g chunk ->
  incl (referencedEntries g) chunk
  /\ length (referencedEntries g) <= length chunk.
Proof.
  destruct g as [am ip fr tr s stamp | b out c stamp | e]; simpl.
  - intros (<- & <-). split.
    + apply incl_app; apply incl_filter.
    + rewrite length_app. unfold notAssistant.
      rewrite filter_split_length. lia.
  - intros (entry & -> & _). destruct c; simpl; split.
    + apply incl_tl, incl_refl.
    + lia.
    + apply incl_tl, incl_refl.
    + lia.
  - intros (dropped & -> & _). split.
    + intros x [<-|[]]. left. reflexivity.
    + simpl. lia.
Qed.

(** X14: the groups hold entries of the conversation and nothing else, and
    no more of them than the conversation has: every entry a group refers
    to is an entry of the input, and the entries of all groups taken
    together are at most as many as the input entries. *)
Theorem groupMessages_entries_from_input (entries : list ConversationEntry)
    (groups : list ProcessedMessage) :
  groupMessages entries = Done groups ->
  incl (flat_map referencedEntries groups) entries
  /\ length (flat_map referencedEntries groups) <= length entries.
Proof.
  intros Hrun.
  destruct (groupMessages_consumes _ _ Hrun) as (chunks & Hall & <-).
  clear Hrun. induction Hall as [|g chunk groups chunks Hg _ (IHi & IHl)]; simpl.
  - split; [apply incl_refl|lia].
  - destruct (consumes_referenced _ _ Hg) as (Hi & Hl). split.
    + apply incl_app; [apply incl_appl; exact Hi|apply incl_appr; exact IHi].
    + rewrite !length_app. lia.
Qed.

Lemma groupMessages_entries_from_input_witness :
  length (flat_map referencedEntries
            [RegularMessage (entryOf user [TextContent "hi"])]) <= 1.
Proof.
  apply (groupMessages_entries_from_input [entryOf user [TextContent "hi"]]).
  reflexivity.
Defined.

(** ** The scan looks forward only *)

Lemma iteration_shift (entries : list ConversationEntry) (i k : nat) :
  k < length (skipn i entries) ->
  exists group next,
    iteration (skipn i entries) k = Done (group, next)
    /\ iteration entries (i + k) = Done (group, i + next).
Proof.
  intros Hk.
  destruct (iteration_advances _ _ Hk) as (group & next & Hit & _).
  exists group, next. split; [exact Hit|].
  read_entry (skipn i entries) k entry He.
  pose proof He as He'. rewrite List.nth_error_skipn in He'.
  assert (Hsk : forall n, skipn n (skipn i entries) = skipn (i + n) entries).
  { intros n. rewrite skipn_skipn. f_equal. lia. }
  assert (Hnth : forall n, nth_error (skipn i entries) (k + n)
                           = nth_error entries (i + k + n)).
  { intros n. rewrite List.nth_error_skipn. f_equal. lia. }
  rewrite (iteration_spec _ _ _ He) in Hit.
  rewrite (iteration_spec _ _ _ He'), <- Hnth.
  destruct (isAssistant entry) eqn:Ha.
  - assert (Hrun : assistantBranch (skipn i entries) k = Done (group, next) ->
                   assistantBranch entries (i + k) = Done (group, i + next)).
    { rewrite (assistantBranch_spec _ _ _ He Ha), (assistantBranch_spec _ _ _ He' Ha).
      rewrite Hsk. intros H. injection H as <- <-. f_equal. f_equal. lia. }
    destruct (find _ _) as [b|]; [|auto].
    destruct (nth_error (skipn i entries) (k + 1)) as [out|] eqn:Ho; [|auto].
    destruct (isBashToolResult out); [|auto].
    pose proof Ho as Ho'. rewrite Hnth in Ho'.
    rewrite (bashBranch_spec _ _ _ _ _ Ho) in Hit.
    rewrite (bashBranch_spec _ _ _ _ _ Ho'), <- Hnth.
    destruct (nth_error (skipn i entries) (k + 2)) as [c|];
      [destruct (_ && _)|]; injection Hit as <- <-; f_equal; f_equal; lia.
  - injection Hit as <- <-. f_equal. f_equal. lia.
Qed.

Lemma groupLoop_shift (entries : list ConversationEntry) (i : nat) (fuel : nat) :
  forall k groups groups',
    i <= length entries ->
    length entries - (i + k) <= fuel ->
    exists more,
      groupLoop fuel entries (i + k) groups = Done (groups ++ more)
      /\ groupLoop fuel (skipn i entries) k groups' = Done (groups' ++ more).
Proof.
  induction fuel as [|fuel IH]; intros k groups groups' Hi Hfuel;
    rewrite !groupLoop_unfold, length_skipn.
  - assert (H1 : (i + k <? length entries) = false) by (apply Nat.ltb_ge; lia).
    assert (H2 : (k <? length entries - i) = false) by (apply Nat.ltb_ge; lia).
    rewrite H1, H2. exists []. rewrite !app_nil_r. auto.
  - destruct (k <? length entries - i) eqn:Hk.
    + apply Nat.ltb_lt in Hk.
      assert (H1 : (i + k <? length entries) = true) by (apply Nat.ltb_lt; lia).
      rewrite H1.
      destruct (iteration_shift entries i k) as (group & next & Hit & Hit');
        [rewrite length_skipn; lia|].
      rewrite Hit, Hit'. simpl.
      destruct (iteration_advances (skipn i entries) k) as (g & n & Hg & Hn);
        [rewrite length_skipn; lia|].
      rewrite Hit in Hg. injection Hg as <- <-.
      destruct (IH next (groups ++ [group]) (groups' ++ [group]) Hi)
        as (more & Hm & Hm'); [lia|].
      exists (group :: more). rewrite Hm, Hm', <- !app_assoc. auto.
    + apply Nat.ltb_ge in Hk.
      assert (H1 : (i + k <? length entries) = false) by (apply Nat.ltb_ge; lia).
      rewrite H1. exists []. rewrite !app_nil_r. auto.
Qed.

Lemma scan_from_cursor (entries : list ConversationEntry) (i : nat)
    (groups : list ProcessedMessage) :
  cursorAt entries i groups ->
  exists more,
    groupMessages (skipn i entries) = Done more
    /\ groupMessages entries = Done (groups ++ more).
Proof.
  intros Hc. pose proof (cursorAt_bound _ _ _ Hc) as Hi.
  destruct (groupLoop_shift entries i (length entries - i) 0 groups [] Hi)
    as (more & Hm & Hm'); [lia|].
  exists more. split.
  - unfold groupMessages. rewrite length_skipn. exact Hm'.
  - rewrite <- (cursorAt_result _ _ _ Hc (length entries - i)) by lia.
    rewrite Nat.add_0_r in Hm. exact Hm.
Qed.

(** X15: the scan never looks behind the cursor and carries nothing over.
    When it stands at the end of a first part of the conversation, the
    groups still to come are the groups of the second part grouped on its
    own, and the result is the groups pushed so far followed by those. *)
Theorem groupMessages_from_cursor (front back : list ConversationEntry)
    (groups : list ProcessedMessage) :
  cursorAt (front ++ back) (length front) groups ->
  exists more,
    groupMessages back = Done more
    /\ groupMessages (front ++ back) = Done (groups ++ more).
Proof.
  intros Hc.
  destruct (scan_from_cursor _ _ _ Hc) as (more & Hback & Hall).
  rewrite skipn_app, skipn_all, Nat.sub_diag in Hback. simpl in Hback.
  exists more. split; assumption.
Qed.

Lemma groupMessages_from_cursor_witness :
  exists more,
    groupMessages [entryOf assistant [TextContent "done"]] = Done more
    /\ groupMessages ([entryOf assistant [bashLs];
                       entryOf user [resultOf "toolu_1"]]
                      ++ [entryOf assistant [TextContent "done"]])
       = Done ([BashWorkflowGroup bashLs (entryOf user [resultOf "toolu_1"])
                  None ""%string] ++ more).
Proof.
  apply (groupMessages_from_cursor
           [entryOf assistant [bashLs]; entryOf user [resultOf "toolu_1"]]
           [entryOf assistant [TextContent "done"]]).
  apply (cursor_next _ 0 [] _ 2 (cursor_start _)); [simpl; lia|reflexivity].
Defined.

(** An entry that is not an assistant entry, standing first, gets a regular
    group of its own, and the rest of the result is the result for the rest
    of the conversation. *)
Lemma head_pass_through (u : ConversationEntry) (rest : list ConversationEntry) :
  isAssistant u = false ->
  exists more,
    groupMessages rest = Done more
    /\ groupMessages (u :: rest) = Done (RegularMessage u :: more).
Proof.
  intros Hu.
  assert (Hc : cursorAt (u :: rest) 1 ([] ++ [RegularMessage u])).
  { apply (cursor_next _ 0 [] _ 1 (cursor_start _)); [simpl; lia|].
    rewrite (iteration_spec (u :: rest) 0 u eq_refl), Hu. reflexivity. }
  destruct (scan_from_cursor _ _ _ Hc) as (more & Hrest & Hall).
  exists more. split; assumption.
Qed.

(** X16: a conversation without assistant entries comes out entry by
    entry: one regular group for each entry, in order. *)
Theorem groupMessages_no_assistant (entries : list ConversationEntry) :
  forallb notAssistant entries = true ->
  groupMessages entries = Done (map RegularMessage entries).
Proof.
  induction entries as [|u rest IH]; [reflexivity|].
  simpl. intros H. apply andb_true_iff in H. destruct H as [Hu Hrest].
  apply negb_true_iff in Hu.
  destruct (head_pass_through u rest Hu) as (more & Hmore & Hall).
  rewrite (IH Hrest) in Hmore. injection Hmore as <-. exact Hall.
Qed.

Lemma groupMessages_no_assistant_witness :
  groupMessages [entryOf user [TextContent "hi"]; entryOf user [resultOf "toolu_0"]]
  = Done [RegularMessage (entryOf user [TextContent "hi"]);
          RegularMessage (entryOf user [resultOf "toolu_0"])].
Proof. apply groupMessages_no_assistant. reflexivity. Defined.

(** ** extractMessageSummary *)

Lemma length_append (s1 s2 : string) :
  String.length (s1 ++ s2) = String.length s1 + String.length s2.
Proof. induction s1 as [|a s1 IH]; simpl; [reflexivity|]. rewrite IH. reflexivity. Qed.

Lemma length_substring_0 (s : string) :
  forall n, n <= String.length s -> String.length (substring 0 n s) = n.
Proof.
  induction s as [|a s IH]; intros [|n] H; simpl in *; try reflexivity; try lia.
  rewrite IH by lia. reflexivity.
Qed.

Lemma find_isText (cs : list MessageContent) :
  existsb isText cs = true -> exists text, find isText cs = Some (TextContent text).
Proof.
  induction cs as [|c cs IH]; simpl; [discriminate|].
  destruct c; simpl; eauto.
Qed.

(** X17: the summary of an entry that has a text item is never longer than
    [maxLength + 3], and when the first text item fits into [maxLength] the
    summary is that text, whatever else the entry contains. *)
Theorem extractMessageSummary_bound (entry : ConversationEntry) (maxLength : nat) :
  existsb isText (content (message entry)) = true ->
  String.length (extractMessageSummary entry maxLength) <= maxLength + 3
  /\ forall text,
       find isText (content (message entry)) = Some (TextContent text) ->
       String.length text <= maxLength ->
       extractMessageSummary entry maxLength = text.
Proof.
  intros Hex. destruct (find_isText _ Hex) as (text & Hf).
  unfold extractMessageSummary. rewrite Hf.
  assert (Hor : orString text "" = text) by (destruct text; reflexivity).
  rewrite Hor. split.
  - destruct (String.length text <=? maxLength) eqn:Hle.
    + apply Nat.leb_le in Hle. lia.
    + apply Nat.leb_gt in Hle.
      rewrite length_append, length_substring_0 by lia. simpl. lia.
  - intros text' H Hlen. injection H as <-.
    apply Nat.leb_le in Hlen. rewrite Hlen. reflexivity.
Qed.

Lemma extractMessageSummary_bound_witness :
  String.length
    (extractMessageSummary
       (entryOf assistant [ToolUse "t" "Read" JsNull; TextContent "a long answer"]) 6)
  <= 6 + 3.
Proof. apply extractMessageSummary_bound. reflexivity. Defined.

(** X18: the summary is the empty string only for an entry whose first
    text item is empty; an entry without text, even one without content,
    always has a summary that says something. *)
Theorem extractMessageSummary_empty (entry : ConversationEntry) (maxLength : nat) :
  extractMessageSummary entry maxLength = ""%string <->
  find isText (content (message entry)) = Some (TextContent "").
Proof.
  unfold extractMessageSummary.
  destruct (find isText (content (message entry))) as [c|] eqn:Hf.
  - pose proof (find_some _ _ Hf) as [_ Hc].
    destruct c as [text| | | |]; try discriminate.
    assert (Hor : orString text "" = text) by (destruct text; reflexivity).
    rewrite Hor.
    destruct (String.length text <=? maxLength) eqn:Hle.
    + split; [intros ->; reflexivity|intros H; injection H as ->; reflexivity].
    + apply Nat.leb_gt in Hle. split.
      * intros H. apply (f_equal String.length) in H.
        rewrite length_append in H. simpl in H. lia.
      * intros H. injection H as ->. simpl in Hle. lia.
  - split; [|discriminate].
    destruct (nth_error (content (message entry)) 0) as [[]|]; discriminate.
Qed.

(** ** Splitting and joining lines *)

Lemma splitLines_nonempty (s : string) : splitLines s <> [].
Proof.
  induction s as [|a s IH]; simpl; [discriminate|].
  destruct (Ascii.eqb a newline); [discriminate|].
  destruct (splitLines s); [contradiction|discriminate].
Qed.

Lemma splitLines_no_newline (s : string) :
  Forall (fun line => occursIn newline line = false) (splitLines s).
Proof.
  induction s as [|a s IH]; simpl; [repeat constructor|].
  destruct (Ascii.eqb a newline) eqn:Ha; [constructor; [reflexivity|exact IH]|].
  destruct (splitLines s) as [|line more]; [repeat constructor; simpl; rewrite Ha; reflexivity|].
  inversion IH as [|? ? Hline Hmore]; subst.
  constructor; [simpl; rewrite Ha, Hline; reflexivity|exact Hmore].
Qed.

Lemma splitLines_line (s : string) :
  occursIn newline s = false -> splitLines s = [s].
Proof.
  induction s as [|a s IH]; simpl; [reflexivity|].
  intros H. apply orb_false_iff in H. destruct H as [Ha Hs].
  rewrite Ha, (IH Hs). reflexivity.
Qed.

Lemma splitLines_cons (s t : string) :
  occursIn newline s = false ->
  splitLines (s ++ String newline t) = s :: splitLines t.
Proof.
  induction s as [|a s IH]; simpl; [reflexivity|].
  intros H. apply orb_false_iff in H. destruct H as [Ha Hs].
  rewrite Ha, (IH Hs). reflexivity.
Qed.

(** Joining lines and splitting again gives the lines back. *)
Lemma splitLines_join (lines : list string) :
  lines <> [] ->
  Forall (fun line => occursIn newline line = false) lines ->
  splitLines (join (String newline EmptyString) lines) = lines.
Proof.
  induction lines as [|s lines IH]; [congruence|].
  intros _ Hall. inversion Hall as [|? ? Hs Hrest]; subst.
  destruct lines as [|t lines].
  - simpl. apply splitLines_line. exact Hs.
  - change (join (String newline EmptyString) (s :: t :: lines))
      with (s ++ String newline (join (String newline EmptyString) (t :: lines)))%string.
    rewrite (splitLines_cons _ _ Hs), IH; [reflexivity|discriminate|exact Hrest].
Qed.

(** X19: combining files loses no line and adds none. When the blank test
    takes the empty line for blank, the lines that the parser reads from
    the combined text are the non-blank lines of the files, file after
    file and in their order. *)
Theorem combined_lines (blank : string -> bool) (contents : list string) :
  blank EmptyString = true ->
  nonBlankLines blank (combineContents blank contents)
  = flat_map (nonBlankLines blank) contents.
Proof.
  intros Hblank. unfold combineContents.
  set (lines := flat_map (nonBlankLines blank) contents).
  assert (Hlines : Forall (fun line => occursIn newline line = false
                                       /\ blank line = false) lines).
  { unfold lines. clear. induction contents as [|c contents IH]; simpl; [constructor|].
    apply Forall_app. split; [|exact IH].
    unfold nonBlankLines. apply Forall_forall. intros line Hin.
    apply filter_In in Hin. destruct Hin as [Hin Hb].
    apply negb_true_iff in Hb. split; [|exact Hb].
    pose proof (splitLines_no_newline c) as Hall.
    rewrite Forall_forall in Hall. apply Hall. exact Hin. }
  destruct lines as [|s lines'] eqn:Hl.
  - unfold nonBlankLines. simpl. rewrite Hblank. reflexivity.
  - unfold nonBlankLines. rewrite splitLines_join.
    + apply filter_keeps_all. intros line Hin.
      rewrite Forall_forall in Hlines. destruct (Hlines line Hin) as [_ Hb].
      rewrite Hb. reflexivity.
    + discriminate.
    + eapply Forall_impl; [|exact Hlines]. intros line [H _]. exact H.
Qed.

Lemma combined_lines_witness :
  nonBlankLines asciiBlank
    (combineContents asciiBlank
       [String "a" (String newline (String newline "b")); ""%string;
        String " " (String newline "c")])
  = ["a"%string; "b"%string; "c"%string].
Proof.
  rewrite (combined_lines asciiBlank) by reflexivity. reflexivity.
Defined.

(** ** The parser and its fallback *)

Section ParserFacts.

Variable toStr : JsValue -> string.
Variable now : string.




(** X20: a record whose [type] is none of [summary], [user] and
    [assistant] adds no entry, and the legacy fallback is not tried for
    it: the first parser returns [null] without throwing. A record in one
    of the legacy formats, which has no [type], is therefore dropped. *)
Theorem parseLine_other_type (sessionKnown : bool) (data type : JsValue) :
  getProp data "type" = Done type ->
  isStringLiteral type "summary" = false ->
  isStringLiteral type "user" = false ->
  isStringLiteral type "assistant" = false ->
  parseClaudeCodeEntry toStr now data = Done None
  /\ parseLine toStr now sessionKnown (Some data) = [].
Proof.
  intros Ht Hs Hu Ha.
  assert (H : parseClaudeCodeEntry toStr now data = Done None).
  { unfold parseClaudeCodeEntry. rewrite Ht. simpl. rewrite Hs, Hu, Ha. reflexivity. }
  split; [exact H|]. unfold parseLine. rewrite H. reflexivity.
Qed.






End ParserFacts.

(** Witnesses for the parser facts, on the record format of the README and
    on a typed record that lacks its [message]. *)
Lemma parseLine_other_type_witness :
  parseLine (fun _ => ""%string) "2024-01-15T10:00:00Z" false
    (Some (JsObject [("role"%string, JsString "user");
                     ("content"%string, JsString "Hello")])) = [].
Proof.
  apply (parseLine_other_type (fun _ => ""%string) "2024-01-15T10:00:00Z" false
           (JsObject [("role"%string, JsString "user");
                      ("content"%string, JsString "Hello")])
           JsUndefined);
    reflexivity.
Defined.


(** ** No entry is passed over *)



